(** * Terminal session engine (terminal.c): a shallow embedding

    The definitions below follow [terminal.c] function by function and keep
    the names of the C source.  Byte strings ([const char *] + [size_t]) are
    lists of 8-bit characters; a pointer/length pair [(str + pos, len - pos)]
    is the suffix of the list that starts at [pos].  C integers are [Z];
    where the source narrows or may wrap, the wrap-around is written out.
    Loops whose trip count is not structurally bounded take a [fuel] argument
    and return [None] when it runs out; the termination theorems show that the
    fuel handed over by the top-level functions always suffices. *)

From Stdlib Require Import ZArith Ascii String DecimalString Bool Lia.
From Stdlib Require Import List.
Import ListNotations.

Set Warnings "-register-all".
Local Open Scope Z_scope.

(** ** Bytes and byte strings *)

Definition bytes := list ascii.

(** Value of a byte read through [unsigned char]. *)
Definition code (c : ascii) : Z := Z.of_N (N_of_ascii c).

(** A C string literal. *)
Definition bs (s : string) : bytes := list_ascii_of_string s.

(** [str[i]]; every buffer the source indexes is NUL-terminated, so the byte
    just past the contents reads as 0. *)
Definition byte_at (str : bytes) (i : nat) : Z := code (nth i str zero).

Definition ESC : ascii := ascii_of_nat 27.

(** Small error monad for the fuelled loops. *)
Definition obind {A B : Type} (m : option A) (k : A -> option B) : option B :=
  match m with
  | Some a => k a
  | None => None
  end.

Notation "x <- m ;; k" := (obind m (fun x => k))
  (at level 61, m at next level, right associativity).
Notation "' p <- m ;; k" := (obind m (fun x => let 'p := x in k))
  (at level 61, p pattern, m at next level, right associativity).

(** [isalpha] in the C locale. *)
Definition isalpha (c : ascii) : bool :=
  let b := code c in
  ((65 <=? b) && (b <=? 90)) || ((97 <=? b) && (b <=? 122)).

(** [tolower] in the C locale. *)
Definition tolower (c : ascii) : Z :=
  let b := code c in
  if (65 <=? b) && (b <=? 90) then b + 32 else b.

(** [printf("%d", n)]. *)
Definition fmt_d (n : Z) : bytes := bs (NilZero.string_of_int (Z.to_int n)).

(** [snprintf(buf, size, ...)] where the formatted text is [out]: at most
    [size - 1] bytes are stored, the return value is the untruncated length. *)
Definition snprintf (size : Z) (out : bytes) : bytes * Z :=
  (firstn (Z.to_nat (size - 1)) out, Z.of_nat (length out)).

(** Narrowing to [int] (32 bits, two's complement). *)
Definition to_int (z : Z) : Z := (z + 2147483648) mod 4294967296 - 2147483648.

(** ** UTF-8 width engine *)

Module Utf8.

(** [unicode_char_width]: display width of a code point. *)
Definition unicode_char_width (cp : Z) : Z :=
  if (cp <? 32) || (cp =? 127) then 0
  else if cp <? 127 then 1
  else if ((0x0300 <=? cp) && (cp <=? 0x036F)) ||
          ((0x1AB0 <=? cp) && (cp <=? 0x1AFF)) ||
          ((0x1DC0 <=? cp) && (cp <=? 0x1DFF)) ||
          ((0x20D0 <=? cp) && (cp <=? 0x20FF)) ||
          ((0xFE00 <=? cp) && (cp <=? 0xFE0F)) ||
          ((0xFE20 <=? cp) && (cp <=? 0xFE2F)) ||
          (cp =? 0x200B) || (cp =? 0x200C) || (cp =? 0x200D) ||
          (cp =? 0xFEFF) then 0
  else if ((0x1100 <=? cp) && (cp <=? 0x115F)) ||
          ((0x2E80 <=? cp) && (cp <=? 0x9FFF)) ||
          ((0xAC00 <=? cp) && (cp <=? 0xD7A3)) ||
          ((0xF900 <=? cp) && (cp <=? 0xFAFF)) ||
          ((0xFE10 <=? cp) && (cp <=? 0xFE1F)) ||
          ((0xFE30 <=? cp) && (cp <=? 0xFE6F)) ||
          ((0xFF00 <=? cp) && (cp <=? 0xFF60)) ||
          ((0xFFE0 <=? cp) && (cp <=? 0xFFE6)) ||
          ((0x20000 <=? cp) && (cp <=? 0x2FFFF)) ||
          ((0x30000 <=? cp) && (cp <=? 0x3FFFF)) then 2
  else if ((0x1F300 <=? cp) && (cp <=? 0x1F9FF)) ||
          ((0x2600 <=? cp) && (cp <=? 0x26FF)) ||
          ((0x2700 <=? cp) && (cp <=? 0x27BF)) then 2
  else 1.

(** [terminal_utf8_char_width(str, len, &bytes)]: the result is the pair
    (display width, [*bytes]); [len] is the length of the list. *)
Definition terminal_utf8_char_width (str : bytes) : Z * nat :=
  match str with
  | [] => (0, 0%nat)
  | c0 :: _ =>
    let len := length str in
    let b0 := code c0 in
    if b0 <? 0x80 then (unicode_char_width b0, 1%nat)
    else if (Z.land b0 0xE0 =? 0xC0) && (2 <=? len)%nat then
      let cp := Z.lor (Z.shiftl (Z.land b0 0x1F) 6)
                      (Z.land (byte_at str 1) 0x3F) in
      (unicode_char_width cp, 2%nat)
    else if (Z.land b0 0xF0 =? 0xE0) && (3 <=? len)%nat then
      let cp := Z.lor (Z.lor (Z.shiftl (Z.land b0 0x0F) 12)
                             (Z.shiftl (Z.land (byte_at str 1) 0x3F) 6))
                      (Z.land (byte_at str 2) 0x3F) in
      (unicode_char_width cp, 3%nat)
    else if (Z.land b0 0xF8 =? 0xF0) && (4 <=? len)%nat then
      let cp := Z.lor (Z.lor (Z.lor (Z.shiftl (Z.land b0 0x07) 18)
                                    (Z.shiftl (Z.land (byte_at str 1) 0x3F) 12))
                             (Z.shiftl (Z.land (byte_at str 2) 0x3F) 6))
                      (Z.land (byte_at str 3) 0x3F) in
      (unicode_char_width cp, 4%nat)
    else (1, 1%nat)
  end.

(** Loop of [terminal_display_width]: [str] is the suffix at [pos]. *)
Fixpoint display_width_loop (fuel : nat) (str : bytes) (width : Z) : option Z :=
  match str with
  | [] => Some width
  | _ :: _ =>
    match fuel with
    | O => None
    | S fuel' =>
      let '(w, n) := terminal_utf8_char_width str in
      display_width_loop fuel' (skipn n str) (width + w)
    end
  end.

Definition terminal_display_width (str : bytes) : option Z :=
  display_width_loop (length str) str 0.

(** Loop of [terminal_utf8_strlen]. *)
Fixpoint utf8_strlen_loop (fuel : nat) (str : bytes) (count : Z) : option Z :=
  match str with
  | [] => Some count
  | _ :: _ =>
    match fuel with
    | O => None
    | S fuel' =>
      let '(_, n) := terminal_utf8_char_width str in
      utf8_strlen_loop fuel' (skipn n str) (count + 1)
    end
  end.

Definition terminal_utf8_strlen (str : bytes) : option Z :=
  utf8_strlen_loop (length str) str 0.

(** Test [str[pos] == '\x1b' && pos + 1 < len && str[pos + 1] == '['] on the
    suffix at [pos]. *)
Definition csi_start (str : bytes) : bool :=
  match str with
  | c0 :: c1 :: _ => (code c0 =? 27) && (code c1 =? 91)
  | _ => false
  end.

(** Inner loop of [display_width_strip_ansi], entered after [pos += 2]:
    advance to the final byte (a letter or [~]) and step over it when there
    is one. *)
Fixpoint skip_csi (str : bytes) : bytes :=
  match str with
  | [] => []
  | c :: rest => if isalpha c || (code c =? 126) then rest else skip_csi rest
  end.

(** Loop of [display_width_strip_ansi]. *)
Fixpoint strip_ansi_loop (fuel : nat) (str : bytes) (width : Z) : option Z :=
  match str with
  | [] => Some width
  | _ :: _ =>
    match fuel with
    | O => None
    | S fuel' =>
      if csi_start str then strip_ansi_loop fuel' (skip_csi (skipn 2 str)) width
      else
        let '(w, n) := terminal_utf8_char_width str in
        strip_ansi_loop fuel' (skipn n str) (width + w)
    end
  end.

Definition display_width_strip_ansi (str : bytes) : option Z :=
  strip_ansi_loop (length str) str 0.

End Utf8.

(** ** Engine state ([terminal_state_t]) *)

(** Modelled from the spec: [php_terminal.h], which declares the capability
    tiers, is not among the sources.  The spec lists the tiers as None,
    Basic16, Extended256, TrueColor, and the source compares them with [>=]
    in that order. *)
Definition COLOR_NONE : Z := 0.
Definition COLOR_16 : Z := 1.
Definition COLOR_256 : Z := 2.
Definition COLOR_TRUECOLOR : Z := 3.

(** Modelled from the spec: the flag bits of [state_flags] (declared in the
    missing header); the spec describes a bitset {RawActive, AltScreenActive,
    CursorHidden}. *)
Definition TERM_STATE_NONE : Z := 0.
Definition TERM_STATE_RAW : Z := 1.
Definition TERM_STATE_ALT_SCREEN : Z := 2.
Definition TERM_STATE_CURSOR_HIDDEN : Z := 4.

(** Capacity of [write_buffer]; the architecture notes of the repository
    give the field as [char write_buffer[8192]]. *)
Definition WRITE_BUFFER_SIZE : Z := 8192.

(** Line-discipline settings ([struct termios]), as far as the engine
    distinguishes them. *)
Record termios := {
  c_iflag : Z;
  c_oflag : Z;
  c_cflag : Z;
  c_lflag : Z;
  c_cc_VMIN : Z;
  c_cc_VTIME : Z
}.

Record terminal_state_t := {
  original_termios : termios;
  raw_termios : termios;
  state_flags : Z;
  color_support : Z;
  cols : Z;
  rows : Z;
  tty_fd : Z;
  write_buffer : bytes;
  write_buffer_pos : Z;
  resize_pending : Z
}.

(** ** Host values ([zval]) *)

Inductive zkey :=
| KIdx (h : Z)
| KStr (s : bytes).

(** The value kinds the engine branches on.  A PHP array is an ordered hash
    table: an association list in insertion order with unique keys. *)
Inductive zval :=
| ZNull
| ZFalse
| ZTrue
| ZLong (n : Z)
| ZString (s : bytes)
| ZArray (ht : list (zkey * zval)).

Fixpoint bytes_eqb (a b : bytes) : bool :=
  match a, b with
  | [], [] => true
  | x :: a', y :: b' => Ascii.eqb x y && bytes_eqb a' b'
  | _, _ => false
  end.

Definition zkey_eqb (a b : zkey) : bool :=
  match a, b with
  | KIdx x, KIdx y => x =? y
  | KStr x, KStr y => bytes_eqb x y
  | _, _ => false
  end.

Fixpoint zend_hash_find (ht : list (zkey * zval)) (k : zkey) : option zval :=
  match ht with
  | [] => None
  | (k', v) :: ht' => if zkey_eqb k' k then Some v else zend_hash_find ht' k
  end.

Definition zend_hash_str_find (ht : list (zkey * zval)) (key : string) : option zval :=
  zend_hash_find ht (KStr (bs key)).

Definition zend_hash_index_find (ht : list (zkey * zval)) (h : Z) : option zval :=
  zend_hash_find ht (KIdx h).

Definition zend_hash_num_elements (ht : list (zkey * zval)) : Z :=
  Z.of_nat (length ht).

(** [zend_is_true]. *)
Definition zend_is_true (v : zval) : bool :=
  match v with
  | ZNull | ZFalse => false
  | ZTrue => true
  | ZLong n => negb (n =? 0)
  | ZString s => negb (bytes_eqb s []) && negb (bytes_eqb s (bs "0"))
  | ZArray ht => negb (zend_hash_num_elements ht =? 0)
  end.

(** [zval_get_long].  The conversion of a string is done by the host's
    numeric-string parser and is left outside the model ([None]). *)
Definition zval_get_long (v : zval) : option Z :=
  match v with
  | ZNull | ZFalse => Some 0
  | ZTrue => Some 1
  | ZLong n => Some n
  | ZString _ => None
  | ZArray ht => Some (if zend_hash_num_elements ht =? 0 then 0 else 1)
  end.

(** [zval_get_string]. *)
Definition zval_get_string (v : zval) : bytes :=
  match v with
  | ZNull | ZFalse => []
  | ZTrue => bs "1"
  | ZLong n => fmt_d n
  | ZString s => s
  | ZArray _ => bs "Array"
  end.

(** The bytes of a C string: everything before the first NUL. *)
Fixpoint c_str (s : bytes) : bytes :=
  match s with
  | [] => []
  | c :: s' => if code c =? 0 then [] else c :: c_str s'
  end.

(** [strcasecmp(a, b) == 0]. *)
Definition strcasecmp_eq (a b : bytes) : bool :=
  if list_eq_dec Z.eq_dec (map tolower (c_str a)) (map tolower (c_str b))
  then true else false.

(** ** Color resolver and style assembly *)

Module Color.

(** [color_map]: name, foreground code, background code. *)
Definition color_map : list (string * Z * Z) :=
  [ ("black", 30, 40); ("red", 31, 41); ("green", 32, 42);
    ("yellow", 33, 43); ("blue", 34, 44); ("magenta", 35, 45);
    ("cyan", 36, 46); ("white", 37, 47);
    ("bright_black", 90, 100); ("bright_red", 91, 101);
    ("bright_green", 92, 102); ("bright_yellow", 93, 103);
    ("bright_blue", 94, 104); ("bright_magenta", 95, 105);
    ("bright_cyan", 96, 106); ("bright_white", 97, 107);
    ("default", 39, 49) ]%string.

(** The [for] loop over [color_map]. *)
Fixpoint find_named (name : bytes) (cm : list (string * Z * Z)) : option (Z * Z) :=
  match cm with
  | [] => None
  | (n, fg, bg) :: cm' =>
    if strcasecmp_eq name (bs n) then Some (fg, bg) else find_named name cm'
  end.

Definition hex_digit (c : ascii) : option Z :=
  let b := code c in
  if (48 <=? b) && (b <=? 57) then Some (b - 48)
  else if (97 <=? b) && (b <=? 102) then Some (b - 87)
  else if (65 <=? b) && (b <=? 70) then Some (b - 55)
  else None.

(** One [%2x] (or [%1x]) conversion of [sscanf] over exactly the hex digits
    [ds].  Input with other characters (sign, blanks, [0x], junk) makes
    [sscanf] shift or stop and leaves the variables indeterminate; that is
    outside the model ([None]). *)
Fixpoint scan_hex (ds : bytes) (acc : Z) : option Z :=
  match ds with
  | [] => Some acc
  | d :: ds' => v <- hex_digit d ;; scan_hex ds' (16 * acc + v)
  end.

(** The three-way degradation shared by the hex and the array branch. *)
Definition emit_rgb (color_support is_bg r g b : Z) (buf_size : Z) : bytes * Z :=
  if COLOR_TRUECOLOR <=? color_support then
    snprintf buf_size
      (fmt_d (if is_bg =? 0 then 38 else 48) ++ bs ";2;" ++ fmt_d r ++
       bs ";" ++ fmt_d g ++ bs ";" ++ fmt_d b)
  else if COLOR_256 <=? color_support then
    let code := 16 + (r / 51) * 36 + (g / 51) * 6 + (b / 51) in
    snprintf buf_size
      (fmt_d (if is_bg =? 0 then 38 else 48) ++ bs ";5;" ++ fmt_d code)
  else
    let bright := if 384 <? r + g + b then 1 else 0 in
    let index := Z.lor (Z.lor (if 127 <? r then 1 else 0)
                              (if 127 <? g then 2 else 0))
                       (if 127 <? b then 4 else 0) in
    snprintf buf_size
      (fmt_d ((if is_bg =? 0 then 30 else 40) + index +
              (if bright =? 0 then 0 else 60))).

Definition clamp255 (v : Z) : Z :=
  if v <? 0 then 0 else if 255 <? v then 255 else v.

(** [terminal_parse_color(color, is_bg, buf, buf_size)].  The result is
    ([buf] contents, return value); on [-1] nothing is stored.  [state] is
    [TERM_STATE()], which may be NULL. *)
Definition terminal_parse_color (state : option terminal_state_t)
    (color : zval) (is_bg : Z) (buf_size : Z) : option (bytes * Z) :=
  let color_support :=
    match state with Some st => color_support st | None => COLOR_16 end in
  match color with
  | ZString name =>
    let len := Z.of_nat (length name) in
    if (byte_at name 0 =? 35) && ((len =? 7) || (len =? 4)) then
      if len =? 7 then
        r <- scan_hex (firstn 2 (skipn 1 name)) 0 ;;
        g <- scan_hex (firstn 2 (skipn 3 name)) 0 ;;
        b <- scan_hex (firstn 2 (skipn 5 name)) 0 ;;
        Some (emit_rgb color_support is_bg r g b buf_size)
      else
        r1 <- scan_hex (firstn 1 (skipn 1 name)) 0 ;;
        g1 <- scan_hex (firstn 1 (skipn 2 name)) 0 ;;
        b1 <- scan_hex (firstn 1 (skipn 3 name)) 0 ;;
        Some (emit_rgb color_support is_bg (r1 * 17) (g1 * 17) (b1 * 17) buf_size)
    else
      match find_named name color_map with
      | Some (fg, bg) => Some (snprintf buf_size (fmt_d (if is_bg =? 0 then fg else bg)))
      | None => Some ([], -1)
      end
  | ZArray ht =>
    if negb (zend_hash_num_elements ht =? 3) then Some ([], -1)
    else
      match zend_hash_index_find ht 0, zend_hash_index_find ht 1,
            zend_hash_index_find ht 2 with
      | Some r_val, Some g_val, Some b_val =>
        r <- zval_get_long r_val ;;
        g <- zval_get_long g_val ;;
        b <- zval_get_long b_val ;;
        Some (emit_rgb color_support is_bg
                (clamp255 (to_int r)) (clamp255 (to_int g)) (clamp255 (to_int b))
                buf_size)
      | _, _, _ => Some ([], -1)
      end
  | _ => Some ([], -1)
  end.

(** [codes_len += snprintf(codes + codes_len, sizeof(codes) - codes_len,
    "%s%s", codes_len > 0 ? ";" : "", piece)] on the 256-byte [codes]. *)
Definition append_code (codes : bytes * Z) (piece : bytes) : bytes * Z :=
  let '(buf, codes_len) := codes in
  let sep := if 0 <? codes_len then bs ";" else [] in
  let '(stored, n) := snprintf (256 - codes_len) (sep ++ piece) in
  (firstn (Z.to_nat codes_len) buf ++ stored, codes_len + n).

(** The [fg] / [bg] blocks of [terminal_apply_style]. *)
Definition add_color (state : option terminal_state_t)
    (ht : list (zkey * zval)) (key : string) (is_bg : Z)
    (codes : bytes * Z) : option (bytes * Z) :=
  match zend_hash_str_find ht key with
  | Some val =>
    '(color_code, cc_len) <- terminal_parse_color state val is_bg 32 ;;
    Some (if 0 <? cc_len then append_code codes (c_str color_code) else codes)
  | None => Some codes
  end.

(** One boolean attribute block of [terminal_apply_style]. *)
Definition add_attr (ht : list (zkey * zval)) (key : string) (sgr : string)
    (codes : bytes * Z) : bytes * Z :=
  match zend_hash_str_find ht key with
  | Some val => if zend_is_true val then append_code codes (bs sgr) else codes
  | None => codes
  end.

(** [terminal_apply_style(text, len, styles, &result)]. *)
Definition terminal_apply_style (state : option terminal_state_t)
    (text : bytes) (styles : zval) : option bytes :=
  match styles with
  | ZArray ht =>
    codes <- add_color state ht "fg" 0 ([], 0) ;;
    codes <- add_color state ht "bg" 1 codes ;;
    let codes := add_attr ht "bold" "1" codes in
    let codes := add_attr ht "dim" "2" codes in
    let codes := add_attr ht "italic" "3" codes in
    let codes := add_attr ht "underline" "4" codes in
    let codes := add_attr ht "blink" "5" codes in
    let codes := add_attr ht "reverse" "7" codes in
    let '(buf, codes_len) := codes in
    if codes_len =? 0 then Some text
    else Some (ESC :: bs "[" ++ c_str buf ++ bs "m" ++ text ++ ESC :: bs "[0m")
  | _ => Some text
  end.

End Color.

(** ** Process-wide state and the output buffer *)

(** What the engine reads and changes outside its own structure: the global
    pointer [TERMINAL_G(state)] (NULL before module initialisation), the
    byte strings handed to [write(STDOUT_FILENO, ...)], one entry per call in
    call order, the settings the terminal currently runs with, and whether
    the engine's five signal handlers are the installed ones. *)
Record world := {
  G_state : option terminal_state_t;
  stdout_writes : list bytes;
  tty_settings : termios;
  engine_handlers : bool
}.

Definition set_G_state (w : world) (st : option terminal_state_t) : world :=
  {| G_state := st;
     stdout_writes := stdout_writes w;
     tty_settings := tty_settings w;
     engine_handlers := engine_handlers w |}.

Definition set_stdout_writes (w : world) (out : list bytes) : world :=
  {| G_state := G_state w;
     stdout_writes := out;
     tty_settings := tty_settings w;
     engine_handlers := engine_handlers w |}.

Definition set_write_buffer (st : terminal_state_t) (buf : bytes) (pos : Z)
  : terminal_state_t :=
  {| original_termios := original_termios st;
     raw_termios := raw_termios st;
     state_flags := state_flags st;
     color_support := color_support st;
     cols := cols st; rows := rows st; tty_fd := tty_fd st;
     write_buffer := buf;
     write_buffer_pos := pos;
     resize_pending := resize_pending st |}.

Definition set_state_flags (st : terminal_state_t) (flags : Z) : terminal_state_t :=
  {| original_termios := original_termios st;
     raw_termios := raw_termios st;
     state_flags := flags;
     color_support := color_support st;
     cols := cols st; rows := rows st; tty_fd := tty_fd st;
     write_buffer := write_buffer st;
     write_buffer_pos := write_buffer_pos st;
     resize_pending := resize_pending st |}.

(** Arithmetic in [size_t]. *)
Definition size_t (z : Z) : Z := z mod 2 ^ 64.

(** [memcpy(dst + pos, src, n)] with [n = length src]. *)
Definition memcpy_at (dst : bytes) (pos : nat) (src : bytes) : bytes :=
  firstn pos dst ++ src ++ skipn (pos + length src) dst.

Module Output.

(** [terminal_init_state], with the terminal's current settings [tio] in
    place of the zeroed [termios] fields. *)
Definition terminal_init_state (tio : termios) : terminal_state_t :=
  {| original_termios := tio;
     raw_termios := tio;
     state_flags := TERM_STATE_NONE;
     color_support := COLOR_NONE;
     cols := 80; rows := 24; tty_fd := -1;
     write_buffer := repeat zero (Z.to_nat WRITE_BUFFER_SIZE);
     write_buffer_pos := 0;
     resize_pending := 0 |}.

(** Body of [terminal_flush_buffer] for a non-NULL state: one [write] of the
    pending bytes, cursor back to zero. *)
Definition flush_state (st : terminal_state_t) (out : list bytes)
  : terminal_state_t * list bytes :=
  if 0 <? write_buffer_pos st then
    (set_write_buffer st (write_buffer st) 0,
     out ++ [firstn (Z.to_nat (write_buffer_pos st)) (write_buffer st)])
  else (st, out).

(** [terminal_flush_buffer]. *)
Definition terminal_flush_buffer (w : world) : world :=
  match G_state w with
  | Some st =>
    let '(st', out') := flush_state st (stdout_writes w) in
    set_stdout_writes (set_G_state w (Some st')) out'
  | None => w
  end.

(** The [while (len > 0)] loop of [terminal_write]; [str] is what is left
    to copy. *)
Fixpoint write_loop (fuel : nat) (st : terminal_state_t) (out : list bytes)
    (str : bytes) : option (terminal_state_t * list bytes) :=
  match str with
  | [] => Some (st, out)
  | _ :: _ =>
    match fuel with
    | O => None
    | S fuel' =>
      let len := Z.of_nat (length str) in
      let available := size_t (WRITE_BUFFER_SIZE - write_buffer_pos st) in
      let to_copy := if len <? available then len else available in
      let st1 :=
        set_write_buffer st
          (memcpy_at (write_buffer st) (Z.to_nat (write_buffer_pos st))
                     (firstn (Z.to_nat to_copy) str))
          (write_buffer_pos st + to_copy) in
      let '(st2, out2) :=
        if WRITE_BUFFER_SIZE <=? write_buffer_pos st1
        then flush_state st1 out else (st1, out) in
      write_loop fuel' st2 out2 (skipn (Z.to_nat to_copy) str)
    end
  end.

(** [terminal_write(str, len)]. *)
Definition terminal_write (w : world) (str : bytes) : option world :=
  match G_state w with
  | None => Some (set_stdout_writes w (stdout_writes w ++ [str]))
  | Some st =>
    '(st', out') <- write_loop (S (length str)) st (stdout_writes w) str ;;
    Some (set_stdout_writes (set_G_state w (Some st')) out')
  end.

(** [terminal_write_str]. *)
Definition terminal_write_str (w : world) (str : bytes) : option world :=
  terminal_write w (c_str str).

End Output.

(** ** Session state machine: leaving raw mode *)

Module Session.
Import Output.

(** [flags & bit] as a C condition. *)
Definition flag_set (flags bit : Z) : bool := negb (Z.land flags bit =? 0).

(** [state->state_flags], read through the global pointer. *)
Definition cur_flags (w : world) : Z :=
  match G_state w with
  | Some st => state_flags st
  | None => 0
  end.

(** [if (state) state->state_flags = f(state->state_flags)]. *)
Definition update_flags (w : world) (f : Z -> Z) : world :=
  match G_state w with
  | Some st => set_G_state w (Some (set_state_flags st (f (state_flags st))))
  | None => w
  end.

(** [terminal_cursor_show]. *)
Definition terminal_cursor_show (w : world) (visible : Z) : option world :=
  if negb (visible =? 0) then
    w1 <- terminal_write_str w (ESC :: bs "[?25h") ;;
    Some (update_flags w1 (fun fl => Z.land fl (Z.lnot TERM_STATE_CURSOR_HIDDEN)))
  else
    w1 <- terminal_write_str w (ESC :: bs "[?25l") ;;
    Some (update_flags w1 (fun fl => Z.lor fl TERM_STATE_CURSOR_HIDDEN)).

(** [terminal_alternate_screen]. *)
Definition terminal_alternate_screen (w : world) (enable : Z) : option world :=
  if negb (enable =? 0) then
    w1 <- terminal_write_str w (ESC :: bs "[?1049h") ;;
    Some (update_flags w1 (fun fl => Z.lor fl TERM_STATE_ALT_SCREEN))
  else
    w1 <- terminal_write_str w (ESC :: bs "[?1049l") ;;
    Some (update_flags w1 (fun fl => Z.land fl (Z.lnot TERM_STATE_ALT_SCREEN))).

(** [terminal_restore_signal_handlers]: the five saved dispositions are put
    back. *)
Definition terminal_restore_signal_handlers (w : world) : world :=
  {| G_state := G_state w;
     stdout_writes := stdout_writes w;
     tty_settings := tty_settings w;
     engine_handlers := false |}.

(** A successful [tcsetattr(fd, TCSAFLUSH, tio)]. *)
Definition apply_termios (w : world) (tio : termios) : world :=
  {| G_state := G_state w;
     stdout_writes := stdout_writes w;
     tty_settings := tio;
     engine_handlers := engine_handlers w |}.

(** [terminal_exit_raw].  [tcsetattr_ret] is what the restoring
    [tcsetattr] call returns in this run (0, or -1 on failure).  The result
    is the new world and the return value; the function dereferences the
    state pointer unconditionally, so a NULL state has no result. *)
Definition terminal_exit_raw (w : world) (tcsetattr_ret : Z) : option (world * Z) :=
  match G_state w with
  | None => None
  | Some st =>
    if negb (flag_set (state_flags st) TERM_STATE_RAW) then Some (w, 0)
    else
      let w := terminal_flush_buffer w in
      w <- (if flag_set (cur_flags w) TERM_STATE_CURSOR_HIDDEN
            then terminal_cursor_show w 1 else Some w) ;;
      w <- (if flag_set (cur_flags w) TERM_STATE_ALT_SCREEN
            then terminal_alternate_screen w 0 else Some w) ;;
      if tcsetattr_ret =? -1 then Some (w, -1)
      else
        let w := apply_termios w (original_termios st) in
        let w := update_flags w (fun fl => Z.land fl (Z.lnot TERM_STATE_RAW)) in
        Some (terminal_restore_signal_handlers w, 0)
  end.

End Session.

(** ** Progress bar *)

Module ProgressBar.

(** [progress_bar_t] without the timestamp and the embedded host object.
    [label] is [None] for a NULL pointer. *)
Record progress_bar_t := {
  total : Z;
  current : Z;
  label : option bytes;
  label_len : Z;
  finished : Z;
  last_rendered_width : Z
}.

Definition set_current (bar : progress_bar_t) (v : Z) : progress_bar_t :=
  {| total := total bar; current := v; label := label bar;
     label_len := label_len bar; finished := finished bar;
     last_rendered_width := last_rendered_width bar |}.

(** [progress_bar_create]. *)
Definition progress_bar_create : progress_bar_t :=
  {| total := 100; current := 0; label := None; label_len := 0;
     finished := 0; last_rendered_width := 0 |}.

(** [Terminal::progressBar(total, label)].  Rendering only writes to the
    output buffer and reads the clock; it changes no field of the bar, so
    the methods are given as functions on the bar. *)
Definition progressBar (total_arg : Z) (label_arg : option bytes) : progress_bar_t :=
  let bar := progress_bar_create in
  let has_label :=
    match label_arg with Some l => negb (length l =? 0)%nat | None => false end in
  {| total := to_int total_arg;
     current := current bar;
     label := if has_label then label_arg else label bar;
     label_len := if has_label
                  then match label_arg with Some l => Z.of_nat (length l) | None => 0 end
                  else label_len bar;
     finished := finished bar;
     last_rendered_width := last_rendered_width bar |}.

(** [ProgressBar::advance(step)]; the [int] addition is taken to wrap. *)
Definition advance (bar : progress_bar_t) (step : Z) : progress_bar_t :=
  if negb (finished bar =? 0) then bar
  else
    let bar := set_current bar (to_int (current bar + to_int step)) in
    if total bar <? current bar then set_current bar (total bar) else bar.

(** [ProgressBar::set(current)]. *)
Definition set (bar : progress_bar_t) (n : Z) : progress_bar_t :=
  if negb (finished bar =? 0) then bar
  else
    let bar := set_current bar (to_int n) in
    let bar := if current bar <? 0 then set_current bar 0 else bar in
    if total bar <? current bar then set_current bar (total bar) else bar.

(** [ProgressBar::finish(message)]. *)
Definition finish (bar : progress_bar_t) : progress_bar_t :=
  if negb (finished bar =? 0) then bar
  else
    {| total := total bar; current := total bar; label := label bar;
       label_len := label_len bar; finished := 1;
       last_rendered_width := last_rendered_width bar |}.

End ProgressBar.

(** ** Key decoder *)

Module Keys.
Import Utf8.

(** Return value of [terminal_read_key] with the contents of the two output
    buffers ([*char_len] is the length of [key_char]). *)
Record key_result := {
  ret : Z;
  key_name : bytes;
  key_char : bytes
}.

(** [strncpy(key_name, s, name_size); return 1;] *)
Definition name_key (name_size : Z) (s : string) : key_result :=
  {| ret := 1; key_name := firstn (Z.to_nat name_size) (bs s); key_char := [] |}.

(** [snprintf(key_name, name_size, "f%d", n); return 1;] *)
Definition fn_key (name_size : Z) (n : Z) : key_result :=
  {| ret := 1; key_name := fst (snprintf name_size (bs "f" ++ fmt_d n));
     key_char := [] |}.

(** The [switch (buf[2])] of the CSI branch; [None] stands for leaving the
    switch without a [return]. *)
Definition csi_switch (buf : bytes) (nread name_size : Z) : option key_result :=
  let c := byte_at buf 2 in
  let tilde3 := (4 <=? nread) && (byte_at buf 3 =? 126) in
  let tilde4 := (5 <=? nread) && (byte_at buf 4 =? 126) in
  if c =? 65 then Some (name_key name_size "up")
  else if c =? 66 then Some (name_key name_size "down")
  else if c =? 67 then Some (name_key name_size "right")
  else if c =? 68 then Some (name_key name_size "left")
  else if c =? 72 then Some (name_key name_size "home")
  else if c =? 70 then Some (name_key name_size "end")
  else if c =? 49 then
    if tilde3 then Some (name_key name_size "home")
    else if tilde4 then
      let fn := byte_at buf 3 - 48 in
      if (5 <=? fn) && (fn <=? 8) then Some (fn_key name_size (fn - 4))
      else None
    else None
  else if c =? 50 then
    if tilde3 then Some (name_key name_size "insert")
    else if tilde4 then
      let code := byte_at buf 3 - 48 in
      if (0 <=? code) && (code <=? 4) then Some (fn_key name_size (code + 9))
      else None
    else None
  else if c =? 51 then
    if tilde3 then Some (name_key name_size "delete") else None
  else if c =? 52 then
    if tilde3 then Some (name_key name_size "end") else None
  else if c =? 53 then
    if tilde3 then Some (name_key name_size "pageup") else None
  else if c =? 54 then
    if tilde3 then Some (name_key name_size "pagedown") else None
  else None.

(** The [switch (buf[2])] of the SS3 branch. *)
Definition ss3_switch (buf : bytes) (name_size : Z) : option key_result :=
  let c := byte_at buf 2 in
  if c =? 80 then Some (name_key name_size "f1")
  else if c =? 81 then Some (name_key name_size "f2")
  else if c =? 82 then Some (name_key name_size "f3")
  else if c =? 83 then Some (name_key name_size "f4")
  else None.

(** The classification part of [terminal_read_key] ("Parse input"), for a
    chunk [buf] of [nread = length buf > 0] bytes. *)
Definition parse_input (buf : bytes) (name_size : Z) : key_result :=
  let nread := Z.of_nat (length buf) in
  let b0 := byte_at buf 0 in
  if b0 =? 27 then
    if nread =? 1 then name_key name_size "esc"
    else
      let hit :=
        if byte_at buf 1 =? 91 then csi_switch buf nread name_size
        else if byte_at buf 1 =? 79 then ss3_switch buf name_size
        else None in
      match hit with
      | Some r => r
      | None => name_key name_size "esc"
      end
  else if b0 <? 32 then
    if (b0 =? 13) || (b0 =? 10) then name_key name_size "enter"
    else if b0 =? 9 then name_key name_size "tab"
    else if (b0 =? 127) || (b0 =? 8) then name_key name_size "backspace"
    else
      {| ret := 1;
         key_name := fst (snprintf name_size
                            (bs "ctrl+" ++ [ascii_of_nat (Z.to_nat (b0 + 97 - 1))]));
         key_char := [] |}
  else if b0 =? 127 then name_key name_size "backspace"
  else
    let '(_, n) := terminal_utf8_char_width buf in
    if (0 <? n)%nat && (n <=? 4)%nat then
      {| ret := 1;
         key_name := firstn (Z.to_nat name_size) (bs "char");
         key_char := firstn n buf |}
    else {| ret := 1; key_name := []; key_char := [] |}.

(** What the wait and the read deliver in one call. *)
Inductive input_event :=
| SelectFailed
| SelectTimeout
| ReadFailed
| ReadChunk (buf : bytes).

(** [terminal_read_key]; [blocking] is [timeout < 0]. *)
Definition terminal_read_key (w : world) (blocking : bool) (ev : input_event)
    (name_size : Z) : world * key_result :=
  let failed := {| ret := -1; key_name := []; key_char := [] |} in
  match G_state w with
  | None => (w, failed)
  | Some st =>
    if Z.land (state_flags st) TERM_STATE_RAW =? 0 then (w, failed)
    else
      let w := Output.terminal_flush_buffer w in
      match ev with
      | SelectFailed => (w, failed)
      | SelectTimeout =>
        if blocking then (w, failed)
        else (w, {| ret := 0; key_name := []; key_char := [] |})
      | ReadFailed => (w, failed)
      | ReadChunk buf =>
        if (length buf =? 0)%nat then (w, failed)
        else (w, parse_input buf name_size)
      end
  end.

End Keys.

(** ** Table renderer: pass 1 (column widths) *)

Module Table.
Import Utf8.

(** [col_widths[i] = v]; the index is always below [num_cols] where the
    source assigns. *)
Fixpoint store (col_widths : list Z) (i : nat) (v : Z) : list Z :=
  match col_widths, i with
  | [], _ => []
  | _ :: rest, O => v :: rest
  | x :: rest, S i' => x :: store rest i' v
  end.

(** The "Header widths" block: [ZEND_HASH_FOREACH_VAL(headers_ht, header)]
    starting at index [i]. *)
Fixpoint header_widths (headers : list (zkey * zval)) (i num_cols : nat)
    (col_widths : list Z) : option (list Z) :=
  match headers with
  | [] => Some col_widths
  | (_, header) :: rest =>
    if (num_cols <=? i)%nat then Some col_widths
    else
      w <- terminal_display_width (zval_get_string header) ;;
      header_widths rest (S i) num_cols (store col_widths i w)
  end.

(** The inner loop of the "Row widths" block, over the cells of one row. *)
Fixpoint cell_widths (cells : list (zkey * zval)) (i num_cols : nat)
    (col_widths : list Z) : option (list Z) :=
  match cells with
  | [] => Some col_widths
  | (_, cell) :: rest =>
    if (num_cols <=? i)%nat then Some col_widths
    else
      w <- terminal_display_width (zval_get_string cell) ;;
      cell_widths rest (S i) num_cols
        (if nth i col_widths 0 <? w then store col_widths i w else col_widths)
  end.

(** The outer loop of the "Row widths" block; a row that is not an array is
    skipped. *)
Fixpoint row_widths (rows : list (zkey * zval)) (num_cols : nat)
    (col_widths : list Z) : option (list Z) :=
  match rows with
  | [] => Some col_widths
  | (_, ZArray cells) :: rest =>
    cw <- cell_widths cells 0 num_cols col_widths ;;
    row_widths rest num_cols cw
  | _ :: rest => row_widths rest num_cols col_widths
  end.

(** "Calculate column widths" in [terminal_render_table], for array
    arguments [headers_ht] and [rows_ht] (the function returns before this
    block when there is no header). *)
Definition column_widths (headers_ht rows_ht : list (zkey * zval))
  : option (list Z) :=
  let num_cols := length headers_ht in
  cw <- header_widths headers_ht 0 num_cols (repeat 0 num_cols) ;;
  row_widths rows_ht num_cols cw.

End Table.

(** Pass 1 as the spec words it: the header's display width against the
    ANSI-stripped display width of every row cell. *)
Module TableSpec.
Import Utf8 Table.

Fixpoint cell_widths_stripped (cells : list (zkey * zval)) (i num_cols : nat)
    (col_widths : list Z) : option (list Z) :=
  match cells with
  | [] => Some col_widths
  | (_, cell) :: rest =>
    if (num_cols <=? i)%nat then Some col_widths
    else
      w <- display_width_strip_ansi (zval_get_string cell) ;;
      cell_widths_stripped rest (S i) num_cols
        (if nth i col_widths 0 <? w then store col_widths i w else col_widths)
  end.

Fixpoint row_widths_stripped (rows : list (zkey * zval)) (num_cols : nat)
    (col_widths : list Z) : option (list Z) :=
  match rows with
  | [] => Some col_widths
  | (_, ZArray cells) :: rest =>
    cw <- cell_widths_stripped cells 0 num_cols col_widths ;;
    row_widths_stripped rest num_cols cw
  | _ :: rest => row_widths_stripped rest num_cols col_widths
  end.

Definition column_widths_stripped (headers_ht rows_ht : list (zkey * zval))
  : option (list Z) :=
  let num_cols := length headers_ht in
  cw <- header_widths headers_ht 0 num_cols (repeat 0 num_cols) ;;
  row_widths_stripped rows_ht num_cols cw.

End TableSpec.

(** ** Session state machine: entering raw mode, size and capability *)

Module Lifecycle.
Import Output Session.

(** The bits of [<termios.h>] the engine names.  They belong to the
    platform, not to the repository, and are taken as a parameter. *)
Record termios_bits := {
  BRKINT : Z; ICRNL : Z; INPCK : Z; ISTRIP : Z; IXON : Z;
  OPOST : Z;
  CS8 : Z;
  ECHO : Z; ICANON : Z; IEXTEN : Z; ISIG : Z
}.

(** What the operating system answers during one [terminal_enter_raw]:
    [isatty(STDIN_FILENO)], whether [tcgetattr] succeeds, the return value
    of [tcsetattr], the columns and rows delivered by a successful
    [ioctl(TIOCGWINSZ)], the environment variables and
    [isatty(STDOUT_FILENO)]. *)
Record os_answers := {
  stdin_isatty : bool;
  tcgetattr_ok : bool;
  tcsetattr_ret : Z;
  winsize : option (Z * Z);
  env_TERM : option bytes;
  env_COLORTERM : option bytes;
  stdout_isatty : bool
}.

(** [strcmp(a, b) == 0] *)
Definition strcmp_eq (a b : bytes) : bool := bytes_eqb (c_str a) (c_str b).

(** Whether [needle] starts [hay]. *)
Fixpoint starts_with (needle hay : bytes) : bool :=
  match needle, hay with
  | [], _ => true
  | x :: needle', y :: hay' => Ascii.eqb x y && starts_with needle' hay'
  | _ :: _, [] => false
  end.

(** [strstr(hay, needle) != NULL] for C strings. *)
Fixpoint contains (needle hay : bytes) : bool :=
  starts_with needle hay ||
  match hay with
  | [] => false
  | _ :: hay' => contains needle hay'
  end.

Definition strstr (hay : bytes) (needle : string) : bool :=
  contains (bs needle) (c_str hay).

(** [terminal_detect_color_support]. *)
Definition terminal_detect_color_support (term colorterm : option bytes)
    (stdout_tty : bool) : Z :=
  let by_colorterm :=
    match colorterm with
    | Some ct => strcmp_eq ct (bs "truecolor") || strcmp_eq ct (bs "24bit")
    | None => false
    end in
  if by_colorterm then COLOR_TRUECOLOR
  else
    let by_term :=
      match term with
      | Some t =>
        if strstr t "truecolor" || strstr t "24bit" then Some COLOR_TRUECOLOR
        else if strstr t "256color" || strstr t "256" then Some COLOR_256
        else if strstr t "color" || strstr t "xterm" || strstr t "screen" ||
                strstr t "vt100" || strstr t "linux" || strstr t "ansi"
             then Some COLOR_16
        else if strcmp_eq t (bs "dumb") then Some COLOR_NONE
        else None
      | None => None
      end in
    match by_term with
    | Some tier => tier
    | None => if stdout_tty then COLOR_16 else COLOR_NONE
    end.

Definition set_size (st : terminal_state_t) (c r : Z) : terminal_state_t :=
  {| original_termios := original_termios st;
     raw_termios := raw_termios st;
     state_flags := state_flags st;
     color_support := color_support st;
     cols := c; rows := r; tty_fd := tty_fd st;
     write_buffer := write_buffer st;
     write_buffer_pos := write_buffer_pos st;
     resize_pending := resize_pending st |}.


Definition set_color_support (st : terminal_state_t) (v : Z) : terminal_state_t :=
  {| original_termios := original_termios st;
     raw_termios := raw_termios st;
     state_flags := state_flags st;
     color_support := v;
     cols := cols st; rows := rows st; tty_fd := tty_fd st;
     write_buffer := write_buffer st;
     write_buffer_pos := write_buffer_pos st;
     resize_pending := resize_pending st |}.

Definition set_tty_fd (st : terminal_state_t) (fd : Z) : terminal_state_t :=
  {| original_termios := original_termios st;
     raw_termios := raw_termios st;
     state_flags := state_flags st;
     color_support := color_support st;
     cols := cols st; rows := rows st; tty_fd := fd;
     write_buffer := write_buffer st;
     write_buffer_pos := write_buffer_pos st;
     resize_pending := resize_pending st |}.

Definition set_termios (st : terminal_state_t) (orig raw : termios) : terminal_state_t :=
  {| original_termios := orig;
     raw_termios := raw;
     state_flags := state_flags st;
     color_support := color_support st;
     cols := cols st; rows := rows st; tty_fd := tty_fd st;
     write_buffer := write_buffer st;
     write_buffer_pos := write_buffer_pos st;
     resize_pending := resize_pending st |}.

(** [terminal_update_size] on the state; [ws] is the window size a
    successful [ioctl] reports. *)
Definition update_size_state (st : terminal_state_t) (ws : option (Z * Z))
  : terminal_state_t :=
  match ws with
  | Some (ws_col, ws_row) =>
    set_size st (if 0 <? ws_col then ws_col else 80)
                (if 0 <? ws_row then ws_row else 24)
  | None => st
  end.

(** [terminal_update_size]; the source dereferences the state without a
    check, the callers only run with a state. *)
Definition terminal_update_size (w : world) (ws : option (Z * Z)) : world :=
  match G_state w with
  | Some st => set_G_state w (Some (update_size_state st ws))
  | None => w
  end.

(** The raw settings derived from the saved ones in
    [terminal_enter_raw]. *)
Definition make_raw (pf : termios_bits) (t : termios) : termios :=
  {| c_iflag := Z.land (c_iflag t)
                  (Z.lnot (Z.lor (Z.lor (Z.lor (Z.lor (BRKINT pf) (ICRNL pf))
                                               (INPCK pf)) (ISTRIP pf)) (IXON pf)));
     c_oflag := Z.land (c_oflag t) (Z.lnot (OPOST pf));
     c_cflag := Z.lor (c_cflag t) (CS8 pf);
     c_lflag := Z.land (c_lflag t)
                  (Z.lnot (Z.lor (Z.lor (Z.lor (ECHO pf) (ICANON pf))
                                        (IEXTEN pf)) (ISIG pf)));
     c_cc_VMIN := 0;
     c_cc_VTIME := 0 |}.

(** [terminal_setup_signal_handlers]: the five engine handlers are
    installed and the previous dispositions saved. *)
Definition terminal_setup_signal_handlers (w : world) : world :=
  {| G_state := G_state w;
     stdout_writes := stdout_writes w;
     tty_settings := tty_settings w;
     engine_handlers := true |}.

(** [terminal_enter_raw]; [STDIN_FILENO] is 0.  [tcgetattr] reads the
    settings the terminal currently runs with. *)
Definition terminal_enter_raw (pf : termios_bits) (os : os_answers) (w : world)
  : option (world * Z) :=
  match G_state w with
  | None => None
  | Some st =>
    if flag_set (state_flags st) TERM_STATE_RAW then Some (w, 0)
    else if negb (stdin_isatty os) then Some (w, -1)
    else
      let st := set_tty_fd st 0 in
      if negb (tcgetattr_ok os) then Some (set_G_state w (Some st), -1)
      else
        let orig := tty_settings w in
        let st := set_termios st orig (make_raw pf orig) in
        if tcsetattr_ret os =? -1 then Some (set_G_state w (Some st), -1)
        else
          let w := apply_termios (set_G_state w (Some st)) (raw_termios st) in
          let w := update_flags w (fun fl => Z.lor fl TERM_STATE_RAW) in
          let w := terminal_update_size w (winsize os) in
          let w :=
            match G_state w with
            | Some st' =>
              set_G_state w (Some (set_color_support st'
                (terminal_detect_color_support (env_TERM os) (env_COLORTERM os)
                                               (stdout_isatty os))))
            | None => w
            end in
          Some (terminal_setup_signal_handlers w, 0)
  end.



End Lifecycle.

(** ** Table renderer: fitting, truncation and alignment *)

Module TableLayout.
Import Utf8 Table.

(** The [for] scan for the widest column inside the shrinking loop: the
    running maximum and its index, from column [i] on. *)
Fixpoint widest_from (col_widths : list Z) (i : nat) (max_col_width : Z)
    (max_col : nat) : Z * nat :=
  match col_widths with
  | [] => (max_col_width, max_col)
  | x :: rest =>
    if max_col_width <? x then widest_from rest (S i) x i
    else widest_from rest (S i) max_col_width max_col
  end.

Definition widest (col_widths : list Z) : Z * nat := widest_from col_widths 0 0 0.

(** [while (excess > 0)]: take one column off the widest column until the
    excess is gone or no column is wider than 3. *)
Fixpoint shrink_columns (excess : nat) (col_widths : list Z) : list Z :=
  match excess with
  | O => col_widths
  | S excess' =>
    let '(max_col_width, max_col) := widest col_widths in
    if max_col_width <=? 3 then col_widths
    else shrink_columns excess'
           (store col_widths max_col (nth max_col col_widths 0 - 1))
  end.

(** "Calculate total width": left border, then per column its width, the
    padding on both sides and the separator. *)
Definition total_width (border : bool) (padding : Z) (col_widths : list Z) : Z :=
  fold_left
    (fun acc w =>
       size_t (size_t (acc + size_t (w + padding * 2)) + (if border then 1 else 0)))
    col_widths (if border then 1 else 0).

(** "Truncate columns if table is too wide"; [border] is
    [border_style != BORDER_NONE]. *)
Definition fit_columns (truncate border : bool) (padding max_width : Z)
    (col_widths : list Z) : list Z :=
  let total := total_width border padding col_widths in
  if truncate && (max_width <? to_int total) && (0 <? length col_widths)%nat
  then shrink_columns (Z.to_nat (to_int (total - max_width))) col_widths
  else col_widths.

(** The padding computation of a data cell; [space] is computed in
    [size_t]. *)
Definition cell_padding (align_right align_center : bool)
    (col_width display_w padding : Z) : Z * Z :=
  let space := size_t (col_width - display_w) in
  if align_right then (size_t (padding + space), padding)
  else if align_center then
    (size_t (padding + space / 2), size_t (padding + (space - space / 2)))
  else (padding, size_t (padding + space)).

(** What [truncate_string] leaves in [dest], or that a copy ran past the
    end of [dest]. *)
Inductive copy_result :=
| Stored (dest : bytes)
| Overrun.

(** Loop of [truncate_string]: [str] is the suffix at [pos], [limit] is
    [max_width - 3].  The result is the final [pos] (equal to
    [last_good_pos]) and whether [pos >= src_len]. *)
Fixpoint truncate_loop (fuel : nat) (str : bytes) (width : Z) (pos : nat)
    (limit : Z) : option (nat * bool) :=
  match str with
  | [] => Some (pos, true)
  | _ :: _ =>
    if negb (width <? limit) then Some (pos, false)
    else
      match fuel with
      | O => None
      | S fuel' =>
        let '(char_width, n) := terminal_utf8_char_width str in
        if width + char_width <=? limit
        then truncate_loop fuel' (skipn n str) (width + char_width) (pos + n) limit
        else Some (pos, false)
      end
  end.

(** [truncate_string(src, src_len, max_width, dest, dest_size, &dest_len)]:
    the first [dest_len] bytes of [dest].  (With [dest_size = 0] the first
    branch copies nothing and sets [dest_len] to [SIZE_MAX]; the contents
    shown are then empty.) *)
Definition truncate_string (src : bytes) (max_width dest_size : Z)
  : option copy_result :=
  if max_width <=? 3 then
    Some (Stored (firstn (Z.to_nat (if 3 <? dest_size then 3 else size_t (dest_size - 1)))
                         (firstn (Z.to_nat dest_size) (bs "..."))))
  else
    '(pos, at_end) <- truncate_loop (length src) src 0 0 (max_width - 3) ;;
    if at_end then
      Some (if Z.of_nat (length src) + 1 <=? dest_size then Stored src else Overrun)
    else
      Some (if Z.of_nat pos + 4 <=? dest_size
            then Stored (firstn pos src ++ bs "...") else Overrun).

End TableLayout.

(** * Vocabulary of the statements

    Predicates, observations and concrete instances that the lemmas and
    theorems below are phrased with.  Nothing here is part of the program. *)

Section Vocabulary.
Import Utf8 Color Output Session ProgressBar Keys Table TableSpec.

(** The attribute [key] is absent or falsy. *)
Definition attr_off (ht : list (zkey * zval)) (key : string) : bool :=
  match zend_hash_str_find ht key with
  | Some val => negb (zend_is_true val)
  | None => true
  end.

(** The array has no entry [key]. *)
Definition no_key (ht : list (zkey * zval)) (key : string) : bool :=
  match zend_hash_str_find ht key with
  | Some _ => false
  | None => true
  end.

(** A style argument that selects nothing: not an array, or an array without
    [fg] and [bg] in which every boolean attribute is absent or falsy. *)
Definition empty_style (styles : zval) : bool :=
  match styles with
  | ZArray ht =>
    no_key ht "fg" && no_key ht "bg" &&
    forallb (attr_off ht)
      ["bold"; "dim"; "italic"; "underline"; "blink"; "reverse"]%string
  | _ => true
  end.

(** Whether the two-byte introducer [ESC \[] occurs somewhere in [s]. *)
Fixpoint has_csi (s : bytes) : bool :=
  match s with
  | [] => false
  | _ :: rest => csi_start s || has_csi rest
  end.

(** Two hexadecimal digits for a channel value. *)
Definition hex_char (v : Z) : ascii :=
  ascii_of_nat (Z.to_nat (if v <? 10 then 48 + v else 87 + v)).

Definition hex2 (v : Z) : bytes := [hex_char (v / 16); hex_char (v mod 16)].

(** An RGB triple as the host passes it, and the same color as [#RRGGBB]. *)
Definition rgb_array (r g b : Z) : zval :=
  ZArray [(KIdx 0, ZLong r); (KIdx 1, ZLong g); (KIdx 2, ZLong b)].

Definition rgb_hex (r g b : Z) : zval :=
  ZString (bs "#" ++ hex2 r ++ hex2 g ++ hex2 b).

(** The value of [snprintf] when the text fits the buffer. *)
Definition stored (frag : bytes) : bytes * Z := (frag, Z.of_nat (length frag)).

(** Palette index of the 6x6x6 cube and basic-color code, as the spec words
    them. *)
Definition palette_index (r g b : Z) : Z :=
  16 + 36 * (r / 51) + 6 * (g / 51) + b / 51.

Definition channel_bit (v : Z) : Z := if 127 <? v then 1 else 0.

Definition basic_code (is_bg r g b : Z) : Z :=
  (if is_bg =? 0 then 30 else 40) +
  (channel_bit r + 2 * channel_bit g + 4 * channel_bit b) +
  (if 384 <? r + g + b then 60 else 0).

(** A session state that differs from a fresh one only in its capability
    tier; used for the concrete instances below. *)
Definition state_with_colors (tier : Z) : terminal_state_t :=
  {| original_termios := Build_termios 0 0 0 0 0 0;
     raw_termios := Build_termios 0 0 0 0 0 0;
     state_flags := TERM_STATE_NONE;
     color_support := tier;
     cols := 80; rows := 24; tty_fd := -1;
     write_buffer := repeat zero (Z.to_nat WRITE_BUFFER_SIZE);
     write_buffer_pos := 0;
     resize_pending := 0 |}.

Definition fg_red : zval := ZArray [(KStr (bs "fg"), ZString (bs "red"))].

(** Bytes copied into the buffer and not yet written out. *)
Definition pending_of (st : terminal_state_t) : bytes :=
  firstn (Z.to_nat (write_buffer_pos st)) (write_buffer st).

Definition pending (w : world) : bytes :=
  match G_state w with
  | Some st => pending_of st
  | None => []
  end.

(** Everything the callers have written so far, in order: what the [write]
    system call has received followed by what still waits in the buffer. *)
Definition emitted (w : world) : bytes := concat (stdout_writes w) ++ pending w.

(** The buffer is a [WRITE_BUFFER_SIZE]-byte array and the cursor lies
    inside it. *)
Definition state_ok (st : terminal_state_t) : Prop :=
  0 <= write_buffer_pos st < WRITE_BUFFER_SIZE /\
  length (write_buffer st) = Z.to_nat WRITE_BUFFER_SIZE.

Definition buffer_ok (w : world) : Prop :=
  match G_state w with
  | Some st => state_ok st
  | None => True
  end.

Inductive buffer_op :=
| OpWrite (data : bytes)
| OpFlush.

Definition apply_op (w : world) (op : buffer_op) : option world :=
  match op with
  | OpWrite data => terminal_write w data
  | OpFlush => Some (terminal_flush_buffer w)
  end.

Fixpoint run_ops (w : world) (ops : list buffer_op) : option world :=
  match ops with
  | [] => Some w
  | op :: ops' => w' <- apply_op w op ;; run_ops w' ops'
  end.

Definition written_by (ops : list buffer_op) : bytes :=
  concat (map (fun op => match op with OpWrite data => data | OpFlush => [] end) ops).

Definition cursor (w : world) : Z :=
  match G_state w with
  | Some st => write_buffer_pos st
  | None => 0
  end.

(** The process right after module initialisation. *)
Definition cooked_termios : termios := Build_termios 0 0 0 0 0 0.

Definition fresh_world : world :=
  {| G_state := Some (terminal_init_state cooked_termios);
     stdout_writes := [];
     tty_settings := cooked_termios;
     engine_handlers := false |}.

(** What a buffered write followed by a flag update leaves alone. *)
Definition session_step (f : Z -> Z) (w w' : world) : Prop :=
  buffer_ok w' /\
  G_state w' <> None /\
  cur_flags w' = f (cur_flags w) /\
  tty_settings w' = tty_settings w /\
  engine_handlers w' = engine_handlers w.

(** A session in raw mode with the cursor hidden. *)
Definition raw_world : world :=
  {| G_state := Some (set_state_flags (terminal_init_state cooked_termios)
                        (Z.lor TERM_STATE_RAW TERM_STATE_CURSOR_HIDDEN));
     stdout_writes := [];
     tty_settings := Build_termios 1 1 1 1 0 0;
     engine_handlers := true |}.

Inductive bar_call :=
| CallAdvance (step : Z)
| CallSet (n : Z)
| CallFinish.

Definition call (bar : progress_bar_t) (c : bar_call) : progress_bar_t :=
  match c with
  | CallAdvance step => advance bar step
  | CallSet n => set bar n
  | CallFinish => finish bar
  end.

(** [ESC \[ <a> <b> ~] *)
Definition csi_tilde2 (a b : string) : bytes := ESC :: bs "[" ++ bs a ++ bs b ++ bs "~".
Definition csi_tilde1 (a : string) : bytes := ESC :: bs "[" ++ bs a ++ bs "~".

Definition key (s : string) : key_result :=
  {| ret := 1; key_name := bs s; key_char := [] |}.

(** Every key an ESC-led chunk can be classified as.  The names f5..f8 are
    not among them. *)
Definition esc_keys : list key_result :=
  map key ["esc"; "up"; "down"; "right"; "left"; "home"; "end"; "insert";
           "delete"; "pageup"; "pagedown"; "f1"; "f2"; "f3"; "f4";
           "f9"; "f10"; "f11"; "f12"; "f13"]%string.

(** A PHP list: values under the keys 0, 1, 2, ... *)
Fixpoint php_list_from (i : Z) (vs : list zval) : list (zkey * zval) :=
  match vs with
  | [] => []
  | v :: vs' => (KIdx i, v) :: php_list_from (i + 1) vs'
  end.

Definition php_list (vs : list zval) : list (zkey * zval) := php_list_from 0 vs.

Definition php_strings (ss : list string) : zval :=
  ZArray (php_list (map (fun s => ZString (bs s)) ss)).

(** Rows without any escape introducer in their cells. *)
Definition plain_row (cells : list (zkey * zval)) : bool :=
  forallb (fun kv => negb (has_csi (zval_get_string (snd kv)))) cells.

Definition plain_rows (rows : list (zkey * zval)) : bool :=
  forallb (fun kv => match snd kv with
                     | ZArray cells => plain_row cells
                     | _ => true
                     end) rows.

(** The cell [ESC \[ 3 1 m X ESC \[ 0 m]: a red X. *)
Definition red_X : bytes := ESC :: bs "[31mX" ++ ESC :: bs "[0m".

End Vocabulary.

(** ** Vocabulary of the further properties *)

Section WidthVocabulary.
Import Utf8.

(** Printable ASCII: every byte in 32..126. *)
Definition printable (s : bytes) : bool :=
  forallb (fun c => (32 <=? code c) && (code c <=? 126)) s.

(** Number of bytes the decoder takes for a character that starts with [c]
    when enough bytes follow. *)
Definition lead_len (c : ascii) : nat :=
  let b := code c in
  if b <? 0x80 then 1
  else if Z.land b 0xE0 =? 0xC0 then 2
  else if Z.land b 0xF0 =? 0xE0 then 3
  else if Z.land b 0xF8 =? 0xF0 then 4
  else 1.

(** No multi-byte lead is cut short: scanning [s] with [lead_len] never
    runs past its end. *)
Fixpoint whole_chars_loop (fuel : nat) (s : bytes) : bool :=
  match s with
  | [] => true
  | c :: _ =>
    match fuel with
    | O => false
    | S fuel' =>
      (lead_len c <=? length s)%nat && whole_chars_loop fuel' (skipn (lead_len c) s)
    end
  end.

Definition whole_chars (s : bytes) : bool := whole_chars_loop (length s) s.

End WidthVocabulary.

Section StyleVocabulary.
Import Utf8 Color.

(** [toupper] in the C locale. *)
Definition toupper (c : ascii) : ascii :=
  if (97 <=? code c) && (code c <=? 122)
  then ascii_of_nat (Z.to_nat (code c - 32)) else c.

(** A byte of an SGR parameter list: a decimal digit or [;]. *)
Definition sgr_char (c : ascii) : bool :=
  ((48 <=? code c) && (code c <=? 57)) || (code c =? 59).








End StyleVocabulary.

Section SessionVocabulary.
Import Output Session Lifecycle.

(** Everything of the state that buffered output and flag updates leave
    alone. *)
Definition config (st : terminal_state_t) :=
  (original_termios st, raw_termios st, color_support st,
   cols st, rows st, tty_fd st, resize_pending st).

(** The sequences [terminal_exit_raw] writes for the flags it finds:
    show the cursor, leave the alternate screen. *)
Definition exit_sequences (flags : Z) : bytes :=
  (if flag_set flags TERM_STATE_CURSOR_HIDDEN then ESC :: bs "[?25h" else []) ++
  (if flag_set flags TERM_STATE_ALT_SCREEN then ESC :: bs "[?1049l" else []).

(** Answers of an operating system that lets [terminal_enter_raw]
    through. *)
Definition os_accepts (os : os_answers) : bool :=
  stdin_isatty os && tcgetattr_ok os && negb (tcsetattr_ret os =? -1).

(** The bit values of Linux, for the concrete instances. *)
Definition linux_bits : termios_bits :=
  {| BRKINT := 2; ICRNL := 256; INPCK := 16; ISTRIP := 32; IXON := 1024;
     OPOST := 1; CS8 := 48;
     ECHO := 8; ICANON := 2; IEXTEN := 32768; ISIG := 1 |}.

Definition xterm_answers : os_answers :=
  {| stdin_isatty := true; tcgetattr_ok := true; tcsetattr_ret := 0;
     winsize := Some (120, 40);
     env_TERM := Some (bs "xterm-256color"); env_COLORTERM := None;
     stdout_isatty := true |}.

End SessionVocabulary.

Section TableVocabulary.
Import Utf8 Table TableLayout.

(** Sum of the column widths. *)
Definition sum_widths (cw : list Z) : Z := fold_right Z.add 0 cw.

(** How shrinking may change one column: never wider, untouched when it is
    at most 3 wide, and never pushed below 3. *)
Definition shrunk (old new : Z) : Prop :=
  new <= old /\ (old <= 3 -> new = old) /\ (3 <= old -> 3 <= new).

(** The table width when nothing wraps around: borders, columns and their
    padding. *)
Definition plain_width (border : bool) (padding : Z) (cw : list Z) : Z :=
  (if border then 1 else 0) + sum_widths cw
  + Z.of_nat (length cw) * (padding * 2 + (if border then 1 else 0)).

End TableVocabulary.

(** * Lemmas and theorems *)

(** ** Properties of the width engine *)

Section Utf8Facts.
Import Utf8.


Lemma char_width_bytes (c : ascii) (s : bytes) :
  let n := snd (terminal_utf8_char_width (c :: s)) in
  (1 <= n <= 4)%nat /\ (n <= length (c :: s))%nat.
Proof.
  unfold terminal_utf8_char_width; cbv zeta.
  repeat match goal with
         | |- context [if ?b then _ else _] => destruct b eqn:?
         end;
    repeat match goal with
           | H : (_ && _)%bool = true |- _ =>
             apply andb_prop in H; destruct H as [_ H]; apply Nat.leb_le in H
           end;
    cbn [snd length] in *; lia.
Qed.

Lemma skip_csi_length (s : bytes) : (length (skip_csi s) <= length s)%nat.
Proof.
  induction s as [|c s IH]; cbn [skip_csi length]; [lia|].
  destruct (isalpha c || (code c =? 126)); lia.
Qed.

Lemma display_width_loop_total (fuel : nat) :
  forall (s : bytes) (w : Z),
    (length s <= fuel)%nat -> exists r, display_width_loop fuel s w = Some r.
Proof.
  induction fuel as [|fuel IH]; intros s w Hlen.
  - destruct s; [eexists; reflexivity | cbn in Hlen; lia].
  - destruct s as [|c s]; [eexists; reflexivity|].
    cbn [display_width_loop].
    pose proof (char_width_bytes c s) as Hb. cbv zeta in Hb.
    destruct (terminal_utf8_char_width (c :: s)) as [cw n].
    cbn [snd] in Hb.
    apply IH. rewrite length_skipn. cbn [length] in *. lia.
Qed.

Lemma utf8_strlen_loop_total (fuel : nat) :
  forall (s : bytes) (k : Z),
    (length s <= fuel)%nat -> exists r, utf8_strlen_loop fuel s k = Some r.
Proof.
  induction fuel as [|fuel IH]; intros s k Hlen.
  - destruct s; [eexists; reflexivity | cbn in Hlen; lia].
  - destruct s as [|c s]; [eexists; reflexivity|].
    cbn [utf8_strlen_loop].
    pose proof (char_width_bytes c s) as Hb. cbv zeta in Hb.
    destruct (terminal_utf8_char_width (c :: s)) as [cw n].
    cbn [snd] in Hb.
    apply IH. rewrite length_skipn. cbn [length] in *. lia.
Qed.

Lemma strip_ansi_loop_total (fuel : nat) :
  forall (s : bytes) (w : Z),
    (length s <= fuel)%nat -> exists r, strip_ansi_loop fuel s w = Some r.
Proof.
  induction fuel as [|fuel IH]; intros s w Hlen.
  - destruct s; [eexists; reflexivity | cbn in Hlen; lia].
  - destruct s as [|c s]; [eexists; reflexivity|].
    cbn [strip_ansi_loop].
    destruct (csi_start (c :: s)) eqn:Hcsi.
    + apply IH.
      destruct s as [|c1 s]; [discriminate|].
      cbn [skipn]. pose proof (skip_csi_length s). cbn [length] in *. lia.
    + pose proof (char_width_bytes c s) as Hb. cbv zeta in Hb.
      destruct (terminal_utf8_char_width (c :: s)) as [cw n].
      cbn [snd] in Hb.
      apply IH. rewrite length_skipn. cbn [length] in *. lia.
Qed.

End Utf8Facts.

(** C10. A decode step on a non-empty byte string consumes 1, 2, 3 or 4
    bytes and never more than are left; consequently the three scanning
    loops ([terminal_display_width], [terminal_utf8_strlen],
    [display_width_strip_ansi]) return a result on every byte string,
    well-formed UTF-8 or not. *)
Theorem utf8_scans_terminate :
  (forall (c : ascii) (s : bytes),
      let n := snd (Utf8.terminal_utf8_char_width (c :: s)) in
      (n = 1 \/ n = 2 \/ n = 3 \/ n = 4)%nat /\ (n <= length (c :: s))%nat) /\
  (forall str : bytes,
      (exists w, Utf8.terminal_display_width str = Some w) /\
      (exists k, Utf8.terminal_utf8_strlen str = Some k) /\
      (exists w, Utf8.display_width_strip_ansi str = Some w)).
Proof.
  split.
  - intros c s n. subst n.
    pose proof (char_width_bytes c s) as Hb. cbv zeta in Hb.
    split; lia.
  - intros str. repeat split.
    + apply display_width_loop_total. lia.
    + apply utf8_strlen_loop_total. lia.
    + apply strip_ansi_loop_total. lia.
Qed.

(** ** Properties of the color resolver and of style assembly *)

Section StyleFacts.
Import Utf8 Color.

Lemma add_attr_off ht key sgr codes :
  attr_off ht key = true -> add_attr ht key sgr codes = codes.
Proof.
  unfold attr_off, add_attr.
  destruct (zend_hash_str_find ht key) as [val|]; [|reflexivity].
  destruct (zend_is_true val); [discriminate | reflexivity].
Qed.

Lemma add_color_absent state ht key is_bg codes :
  no_key ht key = true -> add_color state ht key is_bg codes = Some codes.
Proof.
  unfold no_key, add_color.
  destruct (zend_hash_str_find ht key); [discriminate | reflexivity].
Qed.

Lemma apply_style_empty state text styles :
  empty_style styles = true -> terminal_apply_style state text styles = Some text.
Proof.
  destruct styles as [| | | n | s | ht]; try reflexivity.
  cbn [empty_style forallb]. intros H.
  repeat (apply andb_prop in H; let H' := fresh "H" in destruct H as [H' H]).
  repeat match goal with
         | Ha : (_ && _)%bool = true |- _ =>
           apply andb_prop in Ha; let H' := fresh "H" in destruct Ha as [Ha H']
         end.
  unfold terminal_apply_style.
  rewrite add_color_absent by assumption; cbn [obind].
  rewrite add_color_absent by assumption; cbn [obind].
  rewrite !add_attr_off by assumption.
  reflexivity.
Qed.

Lemma has_csi_skipn (n : nat) :
  forall s, has_csi s = false -> has_csi (skipn n s) = false.
Proof.
  induction n as [|n IH]; intros s H; [exact H|].
  destruct s as [|c s]; [reflexivity|].
  cbn [skipn]. apply IH.
  cbn [has_csi] in H. apply orb_false_elim in H. tauto.
Qed.

Lemma strip_loop_without_csi (fuel : nat) :
  forall s w, has_csi s = false ->
              strip_ansi_loop fuel s w = display_width_loop fuel s w.
Proof.
  induction fuel as [|fuel IH]; intros s w H.
  - destruct s; reflexivity.
  - destruct s as [|c s]; [reflexivity|].
    cbn [strip_ansi_loop display_width_loop].
    assert (Hc : csi_start (c :: s) = false).
    { cbn [has_csi] in H. apply orb_false_elim in H. tauto. }
    rewrite Hc.
    destruct (terminal_utf8_char_width (c :: s)) as [cw n].
    apply IH. now apply has_csi_skipn.
Qed.

(** The text printed by [%d] for a byte value has at most three characters. *)
Lemma fmt_d_short (n : Z) : 0 <= n <= 255 -> (length (fmt_d n) <= 3)%nat.
Proof.
  intros Hn.
  assert (Hall : forallb (fun k => (length (fmt_d (Z.of_nat k)) <=? 3)%nat)
                         (seq 0 256) = true) by (vm_compute; reflexivity).
  rewrite forallb_forall in Hall.
  specialize (Hall (Z.to_nat n)).
  rewrite Z2Nat.id in Hall by lia.
  apply Nat.leb_le, Hall, in_seq. lia.
Qed.

Lemma to_int_small (z : Z) : 0 <= z <= 255 -> to_int z = z.
Proof.
  intros H. unfold to_int.
  rewrite Z.mod_small by lia. lia.
Qed.

Lemma clamp255_id (z : Z) : 0 <= z <= 255 -> clamp255 z = z.
Proof.
  intros H. unfold clamp255.
  destruct (Z.ltb_spec z 0); [lia|].
  destruct (Z.ltb_spec 255 z); [lia | reflexivity].
Qed.

Lemma scan_hex2 (v : Z) : 0 <= v <= 255 -> scan_hex (hex2 v) 0 = Some v.
Proof.
  intros Hv.
  assert (Hall : forallb (fun k =>
             match scan_hex (hex2 (Z.of_nat k)) 0 with
             | Some r => r =? Z.of_nat k
             | None => false
             end) (seq 0 256) = true) by (vm_compute; reflexivity).
  rewrite forallb_forall in Hall.
  specialize (Hall (Z.to_nat v)).
  rewrite Z2Nat.id in Hall by lia.
  assert (Hin : In (Z.to_nat v) (seq 0 256)) by (apply in_seq; lia).
  specialize (Hall Hin).
  destruct (scan_hex (hex2 v) 0) as [r|]; [|discriminate].
  apply Z.eqb_eq in Hall. now subst.
Qed.

Lemma parse_color_rgb state r g b is_bg color :
  0 <= r <= 255 -> 0 <= g <= 255 -> 0 <= b <= 255 ->
  color = rgb_array r g b \/ color = rgb_hex r g b ->
  terminal_parse_color state color is_bg 32 =
  Some (emit_rgb (match state with Some st => color_support st | None => COLOR_16 end)
                 is_bg r g b 32).
Proof.
  intros Hr Hg Hb [-> | ->].
  - cbn -[emit_rgb to_int clamp255].
    now rewrite !to_int_small, !clamp255_id by assumption.
  - unfold rgb_hex, terminal_parse_color.
    change (bs "#" ++ hex2 r ++ hex2 g ++ hex2 b) with
      ("#"%char :: hex2 r ++ hex2 g ++ hex2 b).
    unfold hex2 at 1 2 3. cbn -[emit_rgb scan_hex hex_char].
    fold (hex2 r). fold (hex2 g). fold (hex2 b).
    now rewrite !scan_hex2 by assumption.
Qed.

Lemma snprintf_fits (size : Z) (out : bytes) :
  Z.of_nat (length out) < size -> snprintf size out = stored out.
Proof.
  intros H. unfold snprintf, stored.
  rewrite firstn_all2 by lia. reflexivity.
Qed.

End StyleFacts.

Section StyleClaims.
Import Utf8 Color.

(** C4. Styling with an empty style set (no [fg], no [bg], no boolean
    attribute that is true) returns the text byte for byte, without an
    escape prefix and without a reset suffix. *)
Theorem style_empty_is_identity :
  forall (state : option terminal_state_t) (text : bytes) (styles : zval),
    empty_style styles = true ->
    terminal_apply_style state text styles = Some text.
Proof.
  intros state text styles Hempty.
  now apply apply_style_empty.
Qed.

Lemma style_empty_is_identity_witness :
  empty_style (ZArray [(KStr (bs "bold"), ZFalse)]) = true /\
  terminal_apply_style None (bs "Plain") (ZArray [(KStr (bs "bold"), ZFalse)])
  = Some (bs "Plain").
Proof.
  split; [reflexivity|].
  apply (style_empty_is_identity None (bs "Plain")
           (ZArray [(KStr (bs "bold"), ZFalse)])).
  reflexivity.
Defined.

(** C5, as stated, fails: with capability None the named color [red] still
    contributes its code, and the text comes back wrapped. *)
Lemma style_red_at_none_is_wrapped :
  terminal_apply_style (Some (state_with_colors COLOR_NONE)) (bs "x") fg_red
  <> Some (bs "x").
Proof.
  vm_compute. discriminate.
Qed.

(** C5, amended. With capability None, a foreground of the named color
    [red] contributes the fragment [31]: the result is
    [ESC \[ 3 1 m], the text, [ESC \[ 0 m].  Named colors never consult the
    capability tier. *)
Theorem style_red_at_none :
  forall (st : terminal_state_t) (text : bytes),
    color_support st = COLOR_NONE ->
    terminal_apply_style (Some st) text fg_red
    = Some (ESC :: bs "[31m" ++ text ++ ESC :: bs "[0m").
Proof.
  intros st text _. reflexivity.
Qed.

Lemma style_red_at_none_witness :
  color_support (state_with_colors COLOR_NONE) = COLOR_NONE /\
  terminal_apply_style (Some (state_with_colors COLOR_NONE)) (bs "x") fg_red
  = Some (ESC :: bs "[31m" ++ bs "x" ++ ESC :: bs "[0m").
Proof.
  split; [reflexivity|].
  apply (style_red_at_none (state_with_colors COLOR_NONE) (bs "x")).
  reflexivity.
Defined.

(** C6, as stated, fails: a string that itself carries a CSI sequence has a
    plain width that counts the sequence's printable bytes, while the
    stripped width skips them. *)
Lemma width_law_fails_on_csi :
  terminal_display_width (ESC :: bs "[m")
  <> (t <- terminal_apply_style None (ESC :: bs "[m") (ZArray []) ;;
      display_width_strip_ansi t).
Proof.
  vm_compute. discriminate.
Qed.

(** C6, amended. For every string that does not contain the introducer
    [ESC \[], the plain display width equals the ANSI-stripped display
    width of the string styled with the empty style set (and both are
    defined). *)
Theorem width_law_without_csi :
  forall (state : option terminal_state_t) (s : bytes),
    has_csi s = false ->
    exists w,
      terminal_display_width s = Some w /\
      (t <- terminal_apply_style state s (ZArray []) ;;
       display_width_strip_ansi t) = Some w.
Proof.
  intros state s Hcsi.
  destruct (display_width_loop_total (length s) s 0 (le_n _)) as [w Hw].
  exists w. split; [exact Hw|].
  rewrite apply_style_empty by reflexivity. cbn [obind].
  unfold display_width_strip_ansi.
  rewrite strip_loop_without_csi by assumption.
  exact Hw.
Qed.

Lemma width_law_without_csi_witness :
  has_csi (bs "ok") = false /\
  exists w,
    terminal_display_width (bs "ok") = Some w /\
    (t <- terminal_apply_style None (bs "ok") (ZArray []) ;;
     display_width_strip_ansi t) = Some w.
Proof.
  split; [reflexivity|].
  apply (width_law_without_csi None (bs "ok")).
  reflexivity.
Defined.

(** C9. For channels in 0..255, given as a triple or as [#RRGGBB]: at
    Extended256 the fragment is [38;5;idx] (background [48;5;idx]) with
    [idx = 16 + 36*(r/51) + 6*(g/51) + b/51]; below Extended256 it is the
    single number 30 (background 40) plus the three-bit index built from
    [channel > 127], plus 60 exactly when [r + g + b > 384]. *)
Theorem rgb_degradation :
  forall (st : terminal_state_t) (color : zval) (r g b is_bg : Z),
    0 <= r <= 255 -> 0 <= g <= 255 -> 0 <= b <= 255 ->
    color = rgb_array r g b \/ color = rgb_hex r g b ->
    (color_support st = COLOR_256 ->
     terminal_parse_color (Some st) color is_bg 32 =
     Some (stored (bs (if is_bg =? 0 then "38;5;" else "48;5;") ++
                   fmt_d (palette_index r g b)))) /\
    (color_support st < COLOR_256 ->
     terminal_parse_color (Some st) color is_bg 32 =
     Some (stored (fmt_d (basic_code is_bg r g b)))).
Proof.
  intros st color r g b is_bg Hr Hg Hb Hcolor.
  rewrite (parse_color_rgb (Some st) r g b is_bg color Hr Hg Hb Hcolor).
  assert (Hqr : 0 <= r / 51 <= 5)
    by (split; [apply Z.div_pos | apply Z.div_le_upper_bound]; lia).
  assert (Hqg : 0 <= g / 51 <= 5)
    by (split; [apply Z.div_pos | apply Z.div_le_upper_bound]; lia).
  assert (Hqb : 0 <= b / 51 <= 5)
    by (split; [apply Z.div_pos | apply Z.div_le_upper_bound]; lia).
  split; intros Hcs; unfold emit_rgb; rewrite ?Hcs.
  - change (COLOR_TRUECOLOR <=? COLOR_256) with false.
    change (COLOR_256 <=? COLOR_256) with true. cbv iota zeta.
    replace (16 + r / 51 * 36 + g / 51 * 6 + b / 51)
      with (palette_index r g b) by (unfold palette_index; lia).
    assert (Hlen : (length (fmt_d (palette_index r g b)) <= 3)%nat)
      by (apply fmt_d_short; unfold palette_index; lia).
    destruct (is_bg =? 0).
    + change (fmt_d 38 ++ bs ";5;" ++ fmt_d (palette_index r g b))
        with (bs "38;5;" ++ fmt_d (palette_index r g b)).
      rewrite snprintf_fits; [reflexivity|].
      rewrite length_app. cbn [bs list_ascii_of_string length]. lia.
    + change (fmt_d 48 ++ bs ";5;" ++ fmt_d (palette_index r g b))
        with (bs "48;5;" ++ fmt_d (palette_index r g b)).
      rewrite snprintf_fits; [reflexivity|].
      rewrite length_app. cbn [bs list_ascii_of_string length]. lia.
  - unfold COLOR_TRUECOLOR, COLOR_256 in *.
    destruct (Z.leb_spec 3 (color_support st)); [lia|].
    destruct (Z.leb_spec 2 (color_support st)); [lia|].
    cbv zeta.
    match goal with
    | |- Some (snprintf 32 (fmt_d ?v)) = _ =>
      replace v with (basic_code is_bg r g b)
    end.
    + rewrite snprintf_fits; [reflexivity|].
      assert (Hlen : (length (fmt_d (basic_code is_bg r g b)) <= 3)%nat).
      { apply fmt_d_short. unfold basic_code, channel_bit.
        destruct (is_bg =? 0), (127 <? r), (127 <? g), (127 <? b),
          (384 <? r + g + b); lia. }
      lia.
    + unfold basic_code, channel_bit.
      destruct (is_bg =? 0), (127 <? r), (127 <? g), (127 <? b),
        (384 <? r + g + b); reflexivity.
Qed.

Lemma rgb_degradation_witness :
  terminal_parse_color (Some (state_with_colors COLOR_256))
    (rgb_array 255 136 0) 0 32 = Some (stored (bs "38;5;208")) /\
  terminal_parse_color (Some (state_with_colors COLOR_16))
    (rgb_hex 255 136 0) 1 32 = Some (stored (bs "103")).
Proof.
  split.
  - apply (proj1 (rgb_degradation (state_with_colors COLOR_256)
                    (rgb_array 255 136 0) 255 136 0 0
                    ltac:(lia) ltac:(lia) ltac:(lia) (or_introl eq_refl))).
    reflexivity.
  - apply (proj2 (rgb_degradation (state_with_colors COLOR_16)
                    (rgb_hex 255 136 0) 255 136 0 1
                    ltac:(lia) ltac:(lia) ltac:(lia) (or_intror eq_refl))).
    reflexivity.
Defined.

End StyleClaims.

(** ** Properties of the output buffer *)

Section BufferFacts.
Import Output.

Lemma WRITE_BUFFER_SIZE_bounds : 0 < WRITE_BUFFER_SIZE < 2 ^ 64.
Proof. unfold WRITE_BUFFER_SIZE. lia. Qed.

Lemma memcpy_at_length dst pos src :
  (pos + length src <= length dst)%nat ->
  length (memcpy_at dst pos src) = length dst.
Proof.
  intros H. unfold memcpy_at.
  rewrite !length_app, length_firstn, length_skipn. lia.
Qed.

Lemma memcpy_at_prefix dst pos src :
  (pos <= length dst)%nat ->
  firstn (pos + length src) (memcpy_at dst pos src) = firstn pos dst ++ src.
Proof.
  intros H. unfold memcpy_at.
  rewrite app_assoc.
  rewrite firstn_app.
  rewrite length_app, length_firstn.
  replace (pos + length src - (Nat.min pos (length dst) + length src))%nat
    with 0%nat by lia.
  rewrite firstn_O, app_nil_r.
  apply firstn_all2.
  rewrite length_app, length_firstn. lia.
Qed.

Lemma flush_state_spec st out st' out' :
  flush_state st out = (st', out') ->
  0 <= write_buffer_pos st ->
  write_buffer_pos st' = 0 /\
  write_buffer st' = write_buffer st /\
  state_flags st' = state_flags st /\
  out' = out ++ (if 0 <? write_buffer_pos st then [pending_of st] else []) /\
  concat out' ++ pending_of st' = concat out ++ pending_of st.
Proof.
  unfold flush_state, pending_of. intros Hf Hpos.
  destruct (Z.ltb_spec 0 (write_buffer_pos st)); inversion Hf; subst; clear Hf.
  - cbn [write_buffer_pos write_buffer state_flags set_write_buffer].
    repeat split.
    rewrite concat_app. cbn [concat Z.to_nat firstn].
    now rewrite !app_nil_r.
  - assert (write_buffer_pos st' = 0) as -> by lia.
    rewrite app_nil_r. repeat split.
Qed.

Lemma write_loop_spec (fuel : nat) :
  forall str st out,
    state_ok st -> (length str <= fuel)%nat ->
    exists st' out',
      write_loop fuel st out str = Some (st', out') /\
      state_ok st' /\
      state_flags st' = state_flags st /\
      concat out' ++ pending_of st' = concat out ++ pending_of st ++ str /\
      exists chunks,
        out' = out ++ chunks /\
        Forall (fun c => Z.of_nat (length c) = WRITE_BUFFER_SIZE) chunks.
Proof.
  pose proof WRITE_BUFFER_SIZE_bounds as HS.
  induction fuel as [|fuel IH]; intros str st out [Hpos Hlen] Hfuel.
  - destruct str; [|cbn in Hfuel; lia].
    exists st, out. rewrite app_nil_r.
    split; [reflexivity|]. split; [split; assumption|].
    split; [reflexivity|]. split; [reflexivity|].
    exists []. split; [now rewrite app_nil_r | constructor].
  - destruct str as [|c s].
    { exists st, out. rewrite app_nil_r.
    split; [reflexivity|]. split; [split; assumption|].
    split; [reflexivity|]. split; [reflexivity|].
    exists []. split; [now rewrite app_nil_r | constructor]. }
    cbn [write_loop]. cbv zeta.
    set (str := c :: s) in *.
    assert (Hstr : (1 <= length str)%nat) by (subst str; cbn [length]; lia).
    unfold size_t. rewrite (Z.mod_small (WRITE_BUFFER_SIZE - write_buffer_pos st)) by lia.
    set (to_copy := if Z.of_nat (length str) <? WRITE_BUFFER_SIZE - write_buffer_pos st
                    then Z.of_nat (length str)
                    else WRITE_BUFFER_SIZE - write_buffer_pos st).
    assert (Hcopy : 1 <= to_copy <= Z.of_nat (length str) /\
                    write_buffer_pos st + to_copy <= WRITE_BUFFER_SIZE).
    { subst to_copy.
      destruct (Z.ltb_spec (Z.of_nat (length str))
                           (WRITE_BUFFER_SIZE - write_buffer_pos st)); lia. }
    set (chunk := firstn (Z.to_nat to_copy) str).
    assert (Hchunk : length chunk = Z.to_nat to_copy).
    { subst chunk. rewrite length_firstn. lia. }
    set (st1 := set_write_buffer st
                  (memcpy_at (write_buffer st) (Z.to_nat (write_buffer_pos st)) chunk)
                  (write_buffer_pos st + to_copy)).
    assert (Hlen1 : length (write_buffer st1) = Z.to_nat WRITE_BUFFER_SIZE).
    { subst st1. cbn [write_buffer set_write_buffer].
      rewrite memcpy_at_length; [assumption | lia]. }
    assert (Hpend1 : pending_of st1 = pending_of st ++ chunk).
    { unfold pending_of. subst st1.
      cbn [write_buffer write_buffer_pos set_write_buffer].
      rewrite Z2Nat.inj_add by lia. rewrite <- Hchunk.
      apply memcpy_at_prefix. lia. }
    assert (Hrest : (length (skipn (Z.to_nat to_copy) str) <= fuel)%nat).
    { rewrite length_skipn. lia. }
    assert (Hsplit : str = chunk ++ skipn (Z.to_nat to_copy) str).
    { subst chunk. now rewrite firstn_skipn. }
    destruct (Z.leb_spec WRITE_BUFFER_SIZE (write_buffer_pos st1)) as [Hfull|Hroom].
    + destruct (flush_state st1 out) as [st2 out2] eqn:Hflush.
      apply flush_state_spec in Hflush;
        [|subst st1; cbn [write_buffer_pos set_write_buffer]; lia].
      destruct Hflush as (Hp2 & Hb2 & Hf2 & Ho2 & Hc2).
      destruct (IH (skipn (Z.to_nat to_copy) str) st2 out2)
        as (st' & out' & Hrun & Hok & Hfl & Hcons & chunks & Hout & Hall).
      { split; [lia | congruence]. }
      { assumption. }
      exists st', out'. split; [exact Hrun|]. split; [exact Hok|].
      split; [|split].
      * rewrite Hfl, Hf2. reflexivity.
      * rewrite Hcons, app_assoc, Hc2, Hpend1, <- !app_assoc.
        now rewrite <- Hsplit.
      * exists (pending_of st1 :: chunks). split.
        -- rewrite Hout, Ho2.
           destruct (Z.ltb_spec 0 (write_buffer_pos st1)); [|lia].
           now rewrite <- app_assoc.
        -- constructor; [|exact Hall].
           unfold pending_of. rewrite length_firstn, Hlen1.
           subst st1. cbn [write_buffer_pos set_write_buffer] in *. lia.
    + destruct (IH (skipn (Z.to_nat to_copy) str) st1 out)
        as (st' & out' & Hrun & Hok & Hfl & Hcons & Hchunks).
      { split; [|assumption].
        subst st1. cbn [write_buffer_pos set_write_buffer] in *. lia. }
      { assumption. }
      exists st', out'. split; [exact Hrun|]. split; [exact Hok|].
      split; [|split].
      * rewrite Hfl. reflexivity.
      * rewrite Hcons, Hpend1, <- !app_assoc.
        now rewrite <- Hsplit.
      * exact Hchunks.
Qed.

Lemma terminal_write_spec (w : world) (str : bytes) :
  buffer_ok w ->
  exists w',
    terminal_write w str = Some w' /\
    buffer_ok w' /\
    emitted w' = emitted w ++ str /\
    tty_settings w' = tty_settings w /\
    engine_handlers w' = engine_handlers w /\
    match G_state w, G_state w' with
    | Some st, Some st' => state_flags st' = state_flags st
    | None, None => True
    | _, _ => False
    end.
Proof.
  unfold buffer_ok, terminal_write, emitted, pending.
  destruct (G_state w) as [st|] eqn:Hst; intros Hok.
  - destruct (write_loop_spec (S (length str)) str st (stdout_writes w) Hok)
      as (st' & out' & Hrun & Hok' & Hfl & Hcons & _); [lia|].
    rewrite Hrun. cbn [obind].
    eexists. split; [reflexivity|].
    cbn [G_state stdout_writes tty_settings engine_handlers
         set_stdout_writes set_G_state].
    rewrite Hcons, <- app_assoc.
    split; [assumption|]. repeat split; assumption.
  - eexists. split; [reflexivity|].
    cbn [G_state stdout_writes tty_settings engine_handlers set_stdout_writes].
    rewrite Hst, concat_app. cbn [concat].
    rewrite !app_nil_r. repeat split.
Qed.

Lemma terminal_flush_buffer_spec (w : world) :
  buffer_ok w ->
  buffer_ok (terminal_flush_buffer w) /\
  emitted (terminal_flush_buffer w) = emitted w /\
  pending (terminal_flush_buffer w) = [].
Proof.
  unfold buffer_ok, terminal_flush_buffer, emitted, pending.
  destruct (G_state w) as [st|] eqn:Hst; intros Hok.
  - destruct (flush_state st (stdout_writes w)) as [st' out'] eqn:Hflush.
    cbn [G_state stdout_writes set_stdout_writes set_G_state].
    destruct Hok as [Hpos Hlen].
    apply flush_state_spec in Hflush; [|lia].
    destruct Hflush as (Hp & Hb & Hf & _ & Hc).
    pose proof WRITE_BUFFER_SIZE_bounds.
    repeat split; try lia; try congruence.
    unfold pending_of. rewrite Hp. reflexivity.
  - rewrite Hst. repeat split.
Qed.

End BufferFacts.

Section BufferClaims.
Import Output.

Lemma buffer_ok_cursor (w : world) :
  buffer_ok w -> 0 <= cursor w <= WRITE_BUFFER_SIZE.
Proof.
  unfold buffer_ok, cursor, state_ok.
  pose proof WRITE_BUFFER_SIZE_bounds.
  destruct (G_state w); lia.
Qed.

Lemma run_ops_spec (ops : list buffer_op) :
  forall w, buffer_ok w ->
    exists w', run_ops w ops = Some w' /\ buffer_ok w' /\
               emitted w' = emitted w ++ written_by ops.
Proof.
  induction ops as [|op ops IH]; intros w Hok.
  - exists w. cbn. now rewrite app_nil_r.
  - destruct op as [data|]; cbn [run_ops apply_op].
    + destruct (terminal_write_spec w data Hok) as (w1 & Hw & Hok1 & Hem & _).
      rewrite Hw. cbn [obind].
      destruct (IH w1 Hok1) as (w' & Hrun & Hok' & Hem').
      exists w'. repeat split; try assumption.
      rewrite Hem', Hem. unfold written_by. cbn [map concat].
      now rewrite app_assoc.
    + cbn [obind].
      destruct (terminal_flush_buffer_spec w Hok) as (Hok1 & Hem & _).
      destruct (IH _ Hok1) as (w' & Hrun & Hok' & Hem').
      exists w'. repeat split; try assumption.
      rewrite Hem', Hem. reflexivity.
Qed.

Lemma write_overflow_flushes (w : world) (st : terminal_state_t) (str : bytes) :
  G_state w = Some st -> state_ok st ->
  WRITE_BUFFER_SIZE <= write_buffer_pos st + Z.of_nat (length str) ->
  exists w' chunks,
    terminal_write w str = Some w' /\
    stdout_writes w' = stdout_writes w ++ chunks /\
    chunks <> [] /\
    Forall (fun c => Z.of_nat (length c) = WRITE_BUFFER_SIZE) chunks.
Proof.
  intros Hst Hok Hover. unfold terminal_write. rewrite Hst.
  destruct (write_loop_spec (S (length str)) str st (stdout_writes w) Hok)
    as (st' & out' & Hrun & Hok' & _ & Hcons & chunks & Hout & Hall); [lia|].
  rewrite Hrun. cbn [obind].
  eexists. exists chunks. split; [reflexivity|].
  cbn [stdout_writes set_stdout_writes]. repeat split; try assumption.
  intros ->. rewrite app_nil_r in Hout. subst out'.
  apply app_inv_head in Hcons.
  apply (f_equal (@length ascii)) in Hcons.
  rewrite length_app in Hcons. unfold pending_of in Hcons.
  rewrite !length_firstn in Hcons.
  destruct Hok as [Hp Hl], Hok' as [Hp' Hl'].
  rewrite Hl, Hl' in Hcons. lia.
Qed.

End BufferClaims.

Section BufferTheorem.
Import Output.

Lemma fresh_world_ok : buffer_ok fresh_world.
Proof.
  split; [cbn; unfold WRITE_BUFFER_SIZE; lia|].
  apply repeat_length.
Qed.

(** C8. Starting from a state whose cursor lies inside the buffer, after
    every sequence of [write] and [flush] calls the cursor is at most the
    capacity and the buffer is still the same fixed-size array (no copy went
    past its end); every byte written so far has either been passed to the
    [write] system call or is still pending, in order.  A [write] that
    reaches the capacity issues at least one flush, and each flush it issues
    carries exactly one full buffer. *)
Theorem output_buffer_invariant :
  (forall (ops : list buffer_op) (w : world),
      buffer_ok w ->
      exists w',
        run_ops w ops = Some w' /\
        buffer_ok w' /\
        0 <= cursor w' <= WRITE_BUFFER_SIZE /\
        emitted w' = emitted w ++ written_by ops) /\
  (forall (w : world) (st : terminal_state_t) (str : bytes),
      G_state w = Some st -> state_ok st ->
      WRITE_BUFFER_SIZE <= write_buffer_pos st + Z.of_nat (length str) ->
      exists w' chunks,
        terminal_write w str = Some w' /\
        stdout_writes w' = stdout_writes w ++ chunks /\
        chunks <> [] /\
        Forall (fun c => Z.of_nat (length c) = WRITE_BUFFER_SIZE) chunks).
Proof.
  split.
  - intros ops w Hok.
    destruct (run_ops_spec ops w Hok) as (w' & Hrun & Hok' & Hem).
    exists w'. repeat split; try assumption; now apply buffer_ok_cursor.
  - intros w st str Hst Hok Hover.
    now apply write_overflow_flushes with (st := st).
Qed.

Lemma output_buffer_invariant_witness :
  buffer_ok fresh_world /\
  exists w',
    run_ops fresh_world [OpWrite (bs "ab"); OpFlush; OpWrite (bs "c")] = Some w' /\
    buffer_ok w' /\
    0 <= cursor w' <= WRITE_BUFFER_SIZE /\
    emitted w' = emitted fresh_world ++ bs "abc".
Proof.
  split; [exact fresh_world_ok|].
  apply (proj1 output_buffer_invariant
           [OpWrite (bs "ab"); OpFlush; OpWrite (bs "c")] fresh_world).
  exact fresh_world_ok.
Defined.

End BufferTheorem.

(** ** Properties of leaving raw mode *)

Section SessionFacts.
Import Output Session.

Lemma write_update_step (w : world) (str : bytes) (f : Z -> Z) :
  buffer_ok w -> G_state w <> None ->
  exists w1,
    terminal_write_str w str = Some w1 /\
    session_step f w (update_flags w1 f).
Proof.
  intros Hok Hst. unfold terminal_write_str.
  destruct (terminal_write_spec w (c_str str) Hok)
    as (w1 & Hw & Hok1 & _ & Htty & Hsig & Hfl).
  exists w1. split; [exact Hw|].
  unfold session_step, update_flags, cur_flags, buffer_ok in *.
  destruct (G_state w) as [st|]; [|contradiction].
  destruct (G_state w1) as [st1|]; [|contradiction].
  cbn [G_state set_G_state tty_settings engine_handlers state_flags
       set_state_flags].
  repeat split; try assumption; try discriminate; try apply Hok1.
  now rewrite Hfl.
Qed.

Lemma cursor_show_step (w : world) :
  buffer_ok w -> G_state w <> None ->
  exists w',
    terminal_cursor_show w 1 = Some w' /\
    session_step (fun fl => Z.land fl (Z.lnot TERM_STATE_CURSOR_HIDDEN)) w w'.
Proof.
  intros Hok Hst. unfold terminal_cursor_show. cbn [Z.eqb negb].
  destruct (write_update_step w (ESC :: bs "[?25h")
              (fun fl => Z.land fl (Z.lnot TERM_STATE_CURSOR_HIDDEN)) Hok Hst)
    as (w1 & Hw & Hstep).
  rewrite Hw. cbn [obind]. eauto.
Qed.

Lemma alternate_screen_step (w : world) :
  buffer_ok w -> G_state w <> None ->
  exists w',
    terminal_alternate_screen w 0 = Some w' /\
    session_step (fun fl => Z.land fl (Z.lnot TERM_STATE_ALT_SCREEN)) w w'.
Proof.
  intros Hok Hst. unfold terminal_alternate_screen. cbn [Z.eqb negb].
  destruct (write_update_step w (ESC :: bs "[?1049l")
              (fun fl => Z.land fl (Z.lnot TERM_STATE_ALT_SCREEN)) Hok Hst)
    as (w1 & Hw & Hstep).
  rewrite Hw. cbn [obind]. eauto.
Qed.

Lemma flush_step (w : world) :
  buffer_ok w -> G_state w <> None ->
  session_step (fun fl => fl) w (terminal_flush_buffer w).
Proof.
  intros Hok Hst.
  destruct (terminal_flush_buffer_spec w Hok) as (Hok' & _ & _).
  split; [exact Hok'|]. clear Hok'.
  unfold terminal_flush_buffer, cur_flags, buffer_ok in *.
  destruct (G_state w) as [st|] eqn:Hg; [|contradiction].
  destruct (flush_state st (stdout_writes w)) as [st' out'] eqn:Hflush.
  apply flush_state_spec in Hflush; [|destruct Hok; lia].
  destruct Hflush as (_ & _ & Hf & _).
  cbn [G_state set_G_state set_stdout_writes tty_settings engine_handlers].
  repeat split; [discriminate | exact Hf].
Qed.

Lemma flag_cleared (fl bit : Z) :
  flag_set (Z.land fl (Z.lnot bit)) bit = false.
Proof.
  unfold flag_set.
  rewrite <- Z.land_assoc, (Z.land_comm (Z.lnot bit) bit), Z.land_lnot_diag.
  rewrite Z.land_0_r. reflexivity.
Qed.

Lemma flag_kept (fl bit other : Z) :
  Z.land other bit = 0 ->
  flag_set (Z.land fl (Z.lnot other)) bit = flag_set fl bit.
Proof.
  intros Hdisj. unfold flag_set.
  rewrite <- Z.land_assoc.
  replace (Z.land (Z.lnot other) bit) with bit; [reflexivity|].
  apply Z.bits_inj'. intros n Hn.
  rewrite Z.land_spec, Z.lnot_spec by assumption.
  apply (f_equal (fun z => Z.testbit z n)) in Hdisj.
  rewrite Z.land_spec, Z.bits_0 in Hdisj.
  destruct (Z.testbit other n), (Z.testbit bit n); cbn in *; congruence.
Qed.

Lemma clear_if_set_step (bit : Z) (op : world -> option world) :
  (forall w, buffer_ok w -> G_state w <> None ->
             exists w', op w = Some w' /\
                        session_step (fun fl => Z.land fl (Z.lnot bit)) w w') ->
  forall w, buffer_ok w -> G_state w <> None ->
    exists w',
      (if flag_set (cur_flags w) bit then op w else Some w) = Some w' /\
      buffer_ok w' /\ G_state w' <> None /\
      flag_set (cur_flags w') bit = false /\
      (forall other, Z.land bit other = 0 ->
                     flag_set (cur_flags w') other = flag_set (cur_flags w) other) /\
      tty_settings w' = tty_settings w /\
      engine_handlers w' = engine_handlers w.
Proof.
  intros Hop w Hok Hst.
  destruct (flag_set (cur_flags w) bit) eqn:Hbit.
  - destruct (Hop w Hok Hst) as (w' & Hw & Hok' & Hst' & Hfl & Htty & Hsig).
    exists w'. rewrite Hfl.
    repeat split; try assumption.
    + apply flag_cleared.
    + intros other Hdisj. now apply flag_kept.
  - exists w. repeat split; assumption.
Qed.

(** Leaving raw mode when the restoring [tcsetattr] fails: the call returns
    -1 after the cursor and alternate-screen flags have been cleared, and
    before the raw flag, the terminal settings and the signal handlers are
    touched. *)
Lemma exit_raw_restore_failure (w : world) (st : terminal_state_t) :
  G_state w = Some st -> state_ok st ->
  flag_set (state_flags st) TERM_STATE_RAW = true ->
  exists w',
    terminal_exit_raw w (-1) = Some (w', -1) /\
    flag_set (cur_flags w') TERM_STATE_RAW = true /\
    flag_set (cur_flags w') TERM_STATE_CURSOR_HIDDEN = false /\
    flag_set (cur_flags w') TERM_STATE_ALT_SCREEN = false /\
    tty_settings w' = tty_settings w /\
    engine_handlers w' = engine_handlers w.
Proof.
  intros Hst Hok Hraw.
  assert (Hbuf : buffer_ok w) by (unfold buffer_ok; now rewrite Hst).
  assert (Hsome : G_state w <> None) by (rewrite Hst; discriminate).
  assert (Hcur : cur_flags w = state_flags st) by (unfold cur_flags; now rewrite Hst).
  unfold terminal_exit_raw. rewrite Hst, Hraw. cbn [negb].
  destruct (flush_step w Hbuf Hsome) as (Hok0 & Hst0 & Hfl0 & Htty0 & Hsig0).
  destruct (clear_if_set_step TERM_STATE_CURSOR_HIDDEN
              (fun w => terminal_cursor_show w 1) cursor_show_step
              (terminal_flush_buffer w) Hok0 Hst0)
    as (w1 & Hw1 & Hok1 & Hst1 & Hoff1 & Hkeep1 & Htty1 & Hsig1).
  rewrite Hw1. cbn [obind].
  destruct (clear_if_set_step TERM_STATE_ALT_SCREEN
              (fun w => terminal_alternate_screen w 0) alternate_screen_step
              w1 Hok1 Hst1)
    as (w2 & Hw2 & Hok2 & Hst2 & Hoff2 & Hkeep2 & Htty2 & Hsig2).
  rewrite Hw2. cbn [obind Z.eqb Pos.eqb].
  exists w2. split; [reflexivity|].
  repeat split.
  - rewrite Hkeep2, Hkeep1, Hfl0, Hcur by reflexivity. exact Hraw.
  - rewrite Hkeep2 by reflexivity. exact Hoff1.
  - exact Hoff2.
  - congruence.
  - congruence.
Qed.

End SessionFacts.

Section SessionClaims.
Import Output Session.

(** C1, as stated, fails: when the restoring call fails, [exit] reports the
    failure but the raw-mode flag is still set afterwards. *)
Lemma exit_failure_keeps_raw_flag :
  exists w',
    terminal_exit_raw raw_world (-1) = Some (w', -1) /\
    cur_flags w' = TERM_STATE_RAW /\
    flag_set (cur_flags w') TERM_STATE_RAW <> false.
Proof.
  eexists. split; [vm_compute; reflexivity|].
  split; [reflexivity | discriminate].
Qed.

(** C1, amended. If [exit] runs in raw mode and the restoring [tcsetattr]
    fails, the call reports the failure (-1); by then the cursor-hidden and
    alternate-screen flags have been cleared, while the raw-mode flag stays
    set and the terminal settings and the installed signal handlers are
    left as they were. *)
Theorem exit_restore_failure_reported :
  forall (w : world) (st : terminal_state_t),
    G_state w = Some st -> state_ok st ->
    flag_set (state_flags st) TERM_STATE_RAW = true ->
    exists w',
      terminal_exit_raw w (-1) = Some (w', -1) /\
      flag_set (cur_flags w') TERM_STATE_RAW = true /\
      flag_set (cur_flags w') TERM_STATE_CURSOR_HIDDEN = false /\
      flag_set (cur_flags w') TERM_STATE_ALT_SCREEN = false /\
      tty_settings w' = tty_settings w /\
      engine_handlers w' = engine_handlers w.
Proof.
  intros w st Hst Hok Hraw.
  now apply exit_raw_restore_failure with (st := st).
Qed.

Lemma exit_restore_failure_reported_witness :
  exists w',
    terminal_exit_raw raw_world (-1) = Some (w', -1) /\
    flag_set (cur_flags w') TERM_STATE_RAW = true /\
    flag_set (cur_flags w') TERM_STATE_CURSOR_HIDDEN = false /\
    flag_set (cur_flags w') TERM_STATE_ALT_SCREEN = false /\
    tty_settings w' = tty_settings raw_world /\
    engine_handlers w' = engine_handlers raw_world.
Proof.
  apply (exit_restore_failure_reported raw_world
           (set_state_flags (terminal_init_state cooked_termios)
              (Z.lor TERM_STATE_RAW TERM_STATE_CURSOR_HIDDEN))).
  - reflexivity.
  - split; [cbn; unfold WRITE_BUFFER_SIZE; lia | apply repeat_length].
  - reflexivity.
Defined.

(** The restoring call succeeding, for comparison: every flag is cleared,
    the saved settings are back and the handlers are uninstalled. *)
Example exit_success_clears_everything :
  option_map (fun r => (cur_flags (fst r), tty_settings (fst r),
                        engine_handlers (fst r), snd r))
             (terminal_exit_raw raw_world 0)
  = Some (TERM_STATE_NONE, cooked_termios, false, 0).
Proof. vm_compute. reflexivity. Qed.

End SessionClaims.

Section ProgressBarFacts.
Import ProgressBar.

(** Once finished, every mutator leaves the bar as it is. *)
Lemma finished_bar_is_frozen (bar : progress_bar_t) (calls : list bar_call) :
  finished bar <> 0 -> fold_left call calls bar = bar.
Proof.
  intros Hfin.
  assert (Hone : forall c, call bar c = bar).
  { intros [step|n|]; cbn [call]; unfold advance, set, finish;
      destruct (Z.eqb_spec (finished bar) 0); try contradiction; reflexivity. }
  induction calls as [|c calls IH]; [reflexivity|].
  cbn [fold_left]. now rewrite Hone.
Qed.

(** [set] lands in [0, total] and no call moves [current] above [total]. *)
Lemma set_in_range (bar : progress_bar_t) (n : Z) :
  finished bar = 0 -> 0 <= total bar -> 0 <= current (set bar n) <= total bar.
Proof.
  intros Hfin Htot. unfold set. rewrite Hfin. cbn [Z.eqb negb].
  cbn [current total set_current].
  destruct (Z.ltb_spec (to_int n) 0); cbn [current total set_current].
  - destruct (Z.ltb_spec (total bar) 0); cbn [current set_current]; lia.
  - destruct (Z.ltb_spec (total bar) (to_int n)); cbn [current set_current]; lia.
Qed.

Lemma call_keeps_upper_bound (bar : progress_bar_t) (c : bar_call) :
  current bar <= total bar ->
  current (call bar c) <= total (call bar c) /\ total (call bar c) = total bar.
Proof.
  intros Hb.
  destruct c as [step|n|]; cbn [call]; unfold advance, set, finish;
    (destruct (finished bar =? 0); cbn [negb]; [|split; [exact Hb | reflexivity]]);
    cbn [current total set_current].
  - destruct (Z.ltb_spec (total bar) (to_int (current bar + to_int step)));
      cbn [current total set_current]; lia.
  - destruct (Z.ltb_spec (to_int n) 0); cbn [current total set_current];
      match goal with
      | |- context [if ?x <? ?y then _ else _] => destruct (Z.ltb_spec x y)
      end; cbn [current total set_current]; lia.
  - lia.
Qed.

(** C3, at a failing input: on a fresh bar with total 10, [advance(-5)]
    leaves [current] at -5, below the interval [0, total]; [set(-5)] on the
    same bar clamps to 0. *)
Theorem advance_negative_step_escapes_range :
  current (advance (progressBar 10 None) (-5)) = -5 /\
  current (set (progressBar 10 None) (-5)) = 0.
Proof.
  split; reflexivity.
Qed.

End ProgressBarFacts.

Section KeyFacts.
Import Keys.

(** The single-digit codes. *)
Lemma csi_single_digit_keys :
  map (fun d => parse_input (csi_tilde1 d) 32) ["1"; "2"; "3"; "4"; "5"; "6"]%string
  = map key ["home"; "insert"; "delete"; "end"; "pageup"; "pagedown"]%string.
Proof. reflexivity. Qed.

(** The two-digit codes that start with 1: 15..18 come out as f1..f4, every
    other second digit as esc. *)
Lemma csi_1x_keys :
  map (fun d => parse_input (csi_tilde2 "1" d) 32)
      ["0"; "1"; "2"; "3"; "4"; "5"; "6"; "7"; "8"; "9"]%string
  = map key ["esc"; "esc"; "esc"; "esc"; "esc"; "f1"; "f2"; "f3"; "f4"; "esc"]%string.
Proof. reflexivity. Qed.

(** The two-digit codes that start with 2: 20..24 come out as f9..f13. *)
Lemma csi_2x_keys :
  map (fun d => parse_input (csi_tilde2 "2" d) 32)
      ["0"; "1"; "2"; "3"; "4"; "5"; "6"; "7"; "8"; "9"]%string
  = map key ["f9"; "f10"; "f11"; "f12"; "f13"; "esc"; "esc"; "esc"; "esc"; "esc"]%string.
Proof. reflexivity. Qed.

Ltac in_esc_keys :=
  solve [vm_compute; repeat (first [left; reflexivity | right])].

Lemma fn_key_low (fn : Z) :
  (5 <=? fn) && (fn <=? 8) = true -> In (fn_key 32 (fn - 4)) esc_keys.
Proof.
  intros H. apply andb_prop in H. destruct H as [H1 H2].
  apply Z.leb_le in H1, H2.
  assert (Hfn : fn = 5 \/ fn = 6 \/ fn = 7 \/ fn = 8) by lia.
  destruct Hfn as [-> | [-> | [-> | ->]]]; in_esc_keys.
Qed.

Lemma fn_key_high (code : Z) :
  (0 <=? code) && (code <=? 4) = true -> In (fn_key 32 (code + 9)) esc_keys.
Proof.
  intros H. apply andb_prop in H. destruct H as [H1 H2].
  apply Z.leb_le in H1, H2.
  assert (Hc : code = 0 \/ code = 1 \/ code = 2 \/ code = 3 \/ code = 4) by lia.
  destruct Hc as [-> | [-> | [-> | [-> | ->]]]]; in_esc_keys.
Qed.

Lemma esc_chunk_keys (buf : bytes) :
  byte_at buf 0 = 27 -> In (parse_input buf 32) esc_keys.
Proof.
  intros Hesc. unfold parse_input. rewrite Hesc. cbn [Z.eqb Pos.eqb].
  destruct (Z.of_nat (length buf) =? 1); [in_esc_keys|].
  assert (Hcsi : match csi_switch buf (Z.of_nat (length buf)) 32 with
                 | Some r => In r esc_keys
                 | None => True
                 end).
  { unfold csi_switch. cbv zeta.
    repeat match goal with
           | |- context [if ?c then _ else _] =>
             lazymatch c with
             | context [if _ then _ else _] => fail
             | _ => destruct c eqn:?
             end
           end;
      first [ exact I | now apply fn_key_low | now apply fn_key_high | in_esc_keys ]. }
  assert (Hss3 : match ss3_switch buf 32 with
                 | Some r => In r esc_keys
                 | None => True
                 end).
  { unfold ss3_switch. cbv zeta.
    repeat match goal with
           | |- context [if ?c then _ else _] => destruct c eqn:?
           end;
      first [ exact I | in_esc_keys ]. }
  destruct (byte_at buf 1 =? 91).
  - destruct (csi_switch buf (Z.of_nat (length buf)) 32); [exact Hcsi | in_esc_keys].
  - destruct (byte_at buf 1 =? 79).
    + destruct (ss3_switch buf 32); [exact Hss3 | in_esc_keys].
    + in_esc_keys.
Qed.

(** C7, at a failing input: the chunk [ESC \[ 1 5 ~], which terminals send
    for F5, is classified as f1 and not as f5. *)
Theorem csi_15_tilde_is_f1 :
  parse_input (csi_tilde2 "1" "5") 32 = key "f1" /\
  parse_input (csi_tilde2 "1" "5") 32 <> key "f5".
Proof.
  split; [reflexivity | discriminate].
Qed.

End KeyFacts.

Section TableFacts.
Import Utf8 Table TableSpec.

(** The scenario of the spec: headers ID, Name and two plain rows. *)
Example column_widths_plain :
  column_widths (php_list [ZString (bs "ID"); ZString (bs "Name")])
                (php_list [php_strings ["1"; "Alice"]%string;
                           php_strings ["2"; "Bob"]%string])
  = Some [2; 5].
Proof. reflexivity. Qed.

Lemma strip_width_plain (s : bytes) :
  has_csi s = false -> display_width_strip_ansi s = terminal_display_width s.
Proof.
  intros H. unfold display_width_strip_ansi, terminal_display_width.
  now apply strip_loop_without_csi.
Qed.

Lemma cell_widths_plain (cells : list (zkey * zval)) :
  plain_row cells = true ->
  forall i num_cols cw,
    cell_widths_stripped cells i num_cols cw = cell_widths cells i num_cols cw.
Proof.
  induction cells as [|[k cell] cells IH]; intros Hplain i num_cols cw;
    [reflexivity|].
  cbn [plain_row forallb snd] in Hplain.
  apply andb_prop in Hplain. destruct Hplain as [Hcell Hrest].
  apply negb_true_iff in Hcell.
  cbn [cell_widths_stripped cell_widths].
  destruct (num_cols <=? i)%nat; [reflexivity|].
  rewrite strip_width_plain by assumption.
  destruct (terminal_display_width (zval_get_string cell)); [|reflexivity].
  cbn [obind]. now apply IH.
Qed.

(** On tables whose cells carry no escape sequence, pass 1 computes what the
    spec describes. *)
Lemma column_widths_plain_rows (headers_ht rows_ht : list (zkey * zval)) :
  plain_rows rows_ht = true ->
  column_widths headers_ht rows_ht = column_widths_stripped headers_ht rows_ht.
Proof.
  intros Hplain. unfold column_widths, column_widths_stripped.
  destruct (header_widths headers_ht 0 (length headers_ht)
              (repeat 0 (length headers_ht))) as [cw|]; [|reflexivity].
  cbn [obind]. revert cw.
  induction rows_ht as [|[k row] rows IH]; intros cw; [reflexivity|].
  cbn [plain_rows forallb snd] in Hplain.
  apply andb_prop in Hplain. destruct Hplain as [Hrow Hrest].
  destruct row; cbn [row_widths row_widths_stripped]; try (now apply IH).
  rewrite cell_widths_plain by assumption.
  destruct (cell_widths ht 0 (length headers_ht) cw); [|reflexivity].
  cbn [obind]. now apply IH.
Qed.

(** C2, at a failing input: for the header S and one row holding a red X,
    pass 1 computes the column width 8, the plain display width of the cell
    with the printable bytes of its escape sequences counted, whereas the
    maximum of the header width and the ANSI-stripped cell width is 1. *)
Theorem styled_cell_inflates_column :
  column_widths (php_list [ZString (bs "S")])
                (php_list [ZArray (php_list [ZString red_X])]) = Some [8] /\
  column_widths_stripped (php_list [ZString (bs "S")])
                (php_list [ZArray (php_list [ZString red_X])]) = Some [1] /\
  display_width_strip_ansi red_X = Some 1.
Proof.
  repeat split; reflexivity.
Qed.

End TableFacts.

(** ** Further properties of the width engine *)

Section WidthLaws.
Import Utf8.

Lemma unicode_char_width_range (cp : Z) : 0 <= unicode_char_width cp <= 2.
Proof.
  unfold unicode_char_width.
  repeat match goal with
         | |- context [if ?b then _ else _] => destruct b
         end; lia.
Qed.

Lemma char_width_range (s : bytes) : 0 <= fst (terminal_utf8_char_width s) <= 2.
Proof.
  unfold terminal_utf8_char_width.
  destruct s as [|c s]; [cbn; lia|]. cbv zeta.
  repeat match goal with
         | |- context [if ?b then _ else _] => destruct b
         end; cbn [fst]; try apply unicode_char_width_range; lia.
Qed.

Lemma display_width_loop_bounds (fuel : nat) :
  forall s w r, display_width_loop fuel s w = Some r ->
                w <= r <= w + 2 * Z.of_nat (length s).
Proof.
  induction fuel as [|fuel IH]; intros s w r H.
  - destruct s; cbn in H; [injection H as <-; cbn [length]; lia | discriminate].
  - destruct s as [|c s]; [cbn in H; injection H as <-; cbn [length]; lia|].
    cbn [display_width_loop] in H.
    pose proof (char_width_bytes c s) as Hb. cbv zeta in Hb.
    pose proof (char_width_range (c :: s)) as Hw.
    destruct (terminal_utf8_char_width (c :: s)) as [cw n].
    cbn [fst snd] in *.
    apply IH in H. rewrite length_skipn in H. lia.
Qed.

Lemma utf8_strlen_loop_bounds (fuel : nat) :
  forall s k r, utf8_strlen_loop fuel s k = Some r ->
                k <= r /\ r - k <= Z.of_nat (length s) <= 4 * (r - k).
Proof.
  induction fuel as [|fuel IH]; intros s k r H.
  - destruct s; cbn in H; [injection H as <-; cbn [length]; lia | discriminate].
  - destruct s as [|c s]; [cbn in H; injection H as <-; cbn [length]; lia|].
    cbn [utf8_strlen_loop] in H.
    pose proof (char_width_bytes c s) as Hb. cbv zeta in Hb.
    destruct (terminal_utf8_char_width (c :: s)) as [cw n].
    cbn [fst snd] in *.
    apply IH in H. rewrite length_skipn in H. lia.
Qed.

(** X1.  Both scans return on every byte string.  The display width is at
    least 0 and at most twice the number of bytes; the character count [k]
    and the number of bytes [n] satisfy [k <= n <= 4 * k]. *)
Theorem width_and_count_bounds :
  forall s : bytes,
    exists w k,
      terminal_display_width s = Some w /\
      0 <= w <= 2 * Z.of_nat (length s) /\
      terminal_utf8_strlen s = Some k /\
      k <= Z.of_nat (length s) <= 4 * k.
Proof.
  intros s.
  destruct (display_width_loop_total (length s) s 0 (le_n _)) as [w Hw].
  destruct (utf8_strlen_loop_total (length s) s 0 (le_n _)) as [k Hk].
  exists w, k.
  pose proof (display_width_loop_bounds _ _ _ _ Hw).
  pose proof (utf8_strlen_loop_bounds _ _ _ _ Hk).
  repeat split; try assumption; lia.
Qed.

(** Fuel beyond the length of the string does not matter. *)
Lemma display_width_loop_fuel (f1 : nat) :
  forall f2 s w, (length s <= f1)%nat -> (length s <= f2)%nat ->
                 display_width_loop f1 s w = display_width_loop f2 s w.
Proof.
  induction f1 as [|f1 IH]; intros f2 s w H1 H2.
  - destruct s; [destruct f2; reflexivity | cbn in H1; lia].
  - destruct s as [|c s]; [destruct f2; reflexivity|].
    destruct f2 as [|f2]; [cbn in H2; lia|].
    cbn [display_width_loop].
    pose proof (char_width_bytes c s) as Hb. cbv zeta in Hb.
    destruct (terminal_utf8_char_width (c :: s)) as [cw n].
    cbn [snd] in Hb.
    apply IH; rewrite length_skipn; cbn [length] in *; lia.
Qed.

Lemma utf8_strlen_loop_fuel (f1 : nat) :
  forall f2 s k, (length s <= f1)%nat -> (length s <= f2)%nat ->
                 utf8_strlen_loop f1 s k = utf8_strlen_loop f2 s k.
Proof.
  induction f1 as [|f1 IH]; intros f2 s k H1 H2.
  - destruct s; [destruct f2; reflexivity | cbn in H1; lia].
  - destruct s as [|c s]; [destruct f2; reflexivity|].
    destruct f2 as [|f2]; [cbn in H2; lia|].
    cbn [utf8_strlen_loop].
    pose proof (char_width_bytes c s) as Hb. cbv zeta in Hb.
    destruct (terminal_utf8_char_width (c :: s)) as [cw n].
    cbn [snd] in Hb.
    apply IH; rewrite length_skipn; cbn [length] in *; lia.
Qed.


(** The accumulator only shifts the result. *)
Lemma display_width_loop_shift (fuel : nat) :
  forall s w, display_width_loop fuel s w
              = option_map (Z.add w) (display_width_loop fuel s 0).
Proof.
  induction fuel as [|fuel IH]; intros s w.
  - destruct s; cbn [display_width_loop strip_ansi_loop utf8_strlen_loop option_map]; [f_equal; lia | reflexivity].
  - destruct s as [|c s]; [cbn [display_width_loop strip_ansi_loop utf8_strlen_loop option_map]; f_equal; lia|].
    cbn [display_width_loop].
    destruct (terminal_utf8_char_width (c :: s)) as [cw n].
    rewrite (IH _ (w + cw)), (IH _ (0 + cw)).
    destruct (display_width_loop fuel (skipn n (c :: s)) 0); cbn [option_map]; [f_equal; lia | reflexivity].
Qed.

Lemma strip_ansi_loop_shift (fuel : nat) :
  forall s w, strip_ansi_loop fuel s w
              = option_map (Z.add w) (strip_ansi_loop fuel s 0).
Proof.
  induction fuel as [|fuel IH]; intros s w.
  - destruct s; cbn [display_width_loop strip_ansi_loop utf8_strlen_loop option_map]; [f_equal; lia | reflexivity].
  - destruct s as [|c s]; [cbn [display_width_loop strip_ansi_loop utf8_strlen_loop option_map]; f_equal; lia|].
    cbn [strip_ansi_loop].
    destruct (csi_start (c :: s)); [apply IH|].
    destruct (terminal_utf8_char_width (c :: s)) as [cw n].
    rewrite (IH _ (w + cw)), (IH _ (0 + cw)).
    destruct (strip_ansi_loop fuel (skipn n (c :: s)) 0); cbn [option_map]; [f_equal; lia | reflexivity].
Qed.

Lemma utf8_strlen_loop_shift (fuel : nat) :
  forall s k, utf8_strlen_loop fuel s k
              = option_map (Z.add k) (utf8_strlen_loop fuel s 0).
Proof.
  induction fuel as [|fuel IH]; intros s k.
  - destruct s; cbn [display_width_loop strip_ansi_loop utf8_strlen_loop option_map]; [f_equal; lia | reflexivity].
  - destruct s as [|c s]; [cbn [display_width_loop strip_ansi_loop utf8_strlen_loop option_map]; f_equal; lia|].
    cbn [utf8_strlen_loop].
    destruct (terminal_utf8_char_width (c :: s)) as [cw n].
    rewrite (IH _ (k + 1)), (IH _ (0 + 1)).
    destruct (utf8_strlen_loop fuel (skipn n (c :: s)) 0); cbn [option_map]; [f_equal; lia | reflexivity].
Qed.

Lemma byte_at_app (s rest : bytes) (i : nat) :
  (i < length s)%nat -> byte_at (s ++ rest) i = byte_at s i.
Proof.
  intros H. unfold byte_at. now rewrite app_nth1.
Qed.

(** A character that lies wholly inside [c :: s] is decoded the same way
    whatever follows. *)
Lemma char_width_whole (c : ascii) (s rest : bytes) :
  (lead_len c <= length (c :: s))%nat ->
  terminal_utf8_char_width ((c :: s) ++ rest) = terminal_utf8_char_width (c :: s) /\
  snd (terminal_utf8_char_width (c :: s)) = lead_len c.
Proof.
  unfold lead_len. intros Hlen.
  change ((c :: s) ++ rest) with (c :: (s ++ rest)).
  unfold terminal_utf8_char_width; cbv zeta.
  change (c :: (s ++ rest)) with ((c :: s) ++ rest).
  assert (Happ : (length (c :: s) <= length ((c :: s) ++ rest))%nat)
    by (rewrite length_app; lia).
  destruct (code c <? 128); [split; reflexivity|].
  destruct (Z.land (code c) 224 =? 192); cbn [andb].
  { destruct (Nat.leb_spec 2 (length (c :: s))); [|lia].
    destruct (Nat.leb_spec 2 (length ((c :: s) ++ rest))); [|lia].
    rewrite !byte_at_app by lia. split; reflexivity. }
  destruct (Z.land (code c) 240 =? 224); cbn [andb].
  { destruct (Nat.leb_spec 3 (length (c :: s))); [|lia].
    destruct (Nat.leb_spec 3 (length ((c :: s) ++ rest))); [|lia].
    rewrite !byte_at_app by lia. split; reflexivity. }
  destruct (Z.land (code c) 248 =? 240); cbn [andb].
  { destruct (Nat.leb_spec 4 (length (c :: s))); [|lia].
    destruct (Nat.leb_spec 4 (length ((c :: s) ++ rest))); [|lia].
    rewrite !byte_at_app by lia. split; reflexivity. }
  split; reflexivity.
Qed.

Lemma lead_len_pos (c : ascii) : (1 <= lead_len c <= 4)%nat.
Proof.
  unfold lead_len.
  repeat match goal with
         | |- context [if ?b then _ else _] => destruct b
         end; lia.
Qed.

Lemma display_width_loop_app (n : nat) :
  forall a b w f,
    whole_chars_loop n a = true -> (length (a ++ b) <= f)%nat ->
    display_width_loop f (a ++ b) w
    = (wa <- display_width_loop (length a) a w ;;
       display_width_loop (length b) b wa).
Proof.
  induction n as [|n IH]; intros a b w f Hwhole Hf.
  - destruct a; [|discriminate].
    cbn [app length display_width_loop obind].
    apply display_width_loop_fuel; [assumption | lia].
  - destruct a as [|c a].
    { cbn [app length display_width_loop obind].
      apply display_width_loop_fuel; [assumption | lia]. }
    cbn [whole_chars_loop] in Hwhole.
    apply andb_prop in Hwhole. destruct Hwhole as [Hlead Hrest].
    apply Nat.leb_le in Hlead.
    destruct (char_width_whole c a b Hlead) as [Happ Hn].
    pose proof (lead_len_pos c) as Hpos.
    destruct f as [|f]; [cbn in Hf; lia|].
    change ((c :: a) ++ b) with (c :: (a ++ b)) in *.
    cbn [display_width_loop length].
    rewrite Happ.
    destruct (terminal_utf8_char_width (c :: a)) as [cw k].
    cbn [snd] in Hn. subst k.
    change (c :: (a ++ b)) with ((c :: a) ++ b).
    rewrite skipn_app.
    replace (lead_len c - length (c :: a))%nat with 0%nat by (cbn [length] in *; lia).
    cbn [skipn].
    rewrite (IH (skipn (lead_len c) (c :: a)) b (w + cw) f Hrest).
    + f_equal. apply display_width_loop_fuel; rewrite length_skipn; cbn [length]; lia.
    + rewrite length_app, length_skipn. cbn [length app] in *.
      rewrite length_app in Hf. lia.
Qed.

Lemma utf8_strlen_loop_app (n : nat) :
  forall a b k f,
    whole_chars_loop n a = true -> (length (a ++ b) <= f)%nat ->
    utf8_strlen_loop f (a ++ b) k
    = (ka <- utf8_strlen_loop (length a) a k ;;
       utf8_strlen_loop (length b) b ka).
Proof.
  induction n as [|n IH]; intros a b k f Hwhole Hf.
  - destruct a; [|discriminate].
    cbn [app length utf8_strlen_loop obind].
    apply utf8_strlen_loop_fuel; [assumption | lia].
  - destruct a as [|c a].
    { cbn [app length utf8_strlen_loop obind].
      apply utf8_strlen_loop_fuel; [assumption | lia]. }
    cbn [whole_chars_loop] in Hwhole.
    apply andb_prop in Hwhole. destruct Hwhole as [Hlead Hrest].
    apply Nat.leb_le in Hlead.
    destruct (char_width_whole c a b Hlead) as [Happ Hn].
    pose proof (lead_len_pos c) as Hpos.
    destruct f as [|f]; [cbn in Hf; lia|].
    change ((c :: a) ++ b) with (c :: (a ++ b)) in *.
    cbn [utf8_strlen_loop length].
    rewrite Happ.
    destruct (terminal_utf8_char_width (c :: a)) as [cw m].
    cbn [snd] in Hn. subst m.
    change (c :: (a ++ b)) with ((c :: a) ++ b).
    rewrite skipn_app.
    replace (lead_len c - length (c :: a))%nat with 0%nat by (cbn [length] in *; lia).
    cbn [skipn].
    rewrite (IH (skipn (lead_len c) (c :: a)) b (k + 1) f Hrest).
    + f_equal. apply utf8_strlen_loop_fuel; rewrite length_skipn; cbn [length]; lia.
    + rewrite length_app, length_skipn. cbn [length app] in *.
      rewrite length_app in Hf. lia.
Qed.

(** X3.  When no multi-byte character of [a] is cut short by the end of
    [a], the display width and the character count of [a ++ b] are the sums
    of those of [a] and [b]. *)
Theorem width_of_concatenation :
  forall a b : bytes,
    whole_chars a = true ->
    exists wa wb ka kb,
      terminal_display_width a = Some wa /\
      terminal_display_width b = Some wb /\
      terminal_display_width (a ++ b) = Some (wa + wb) /\
      terminal_utf8_strlen a = Some ka /\
      terminal_utf8_strlen b = Some kb /\
      terminal_utf8_strlen (a ++ b) = Some (ka + kb).
Proof.
  intros a b Hwhole.
  destruct (display_width_loop_total (length a) a 0 (le_n _)) as [wa Hwa].
  destruct (display_width_loop_total (length b) b 0 (le_n _)) as [wb Hwb].
  destruct (utf8_strlen_loop_total (length a) a 0 (le_n _)) as [ka Hka].
  destruct (utf8_strlen_loop_total (length b) b 0 (le_n _)) as [kb Hkb].
  exists wa, wb, ka, kb.
  unfold terminal_display_width, terminal_utf8_strlen.
  repeat split; try assumption.
  - rewrite (display_width_loop_app (length a) a b 0 _ Hwhole (le_n _)).
    rewrite Hwa. cbn [obind].
    rewrite display_width_loop_shift, Hwb. reflexivity.
  - rewrite (utf8_strlen_loop_app (length a) a b 0 _ Hwhole (le_n _)).
    rewrite Hka. cbn [obind].
    rewrite utf8_strlen_loop_shift, Hkb. reflexivity.
Qed.

Lemma width_of_concatenation_witness :
  exists wa wb ka kb,
    terminal_display_width (bs "ab") = Some wa /\
    terminal_display_width (bs "cde") = Some wb /\
    terminal_display_width (bs "ab" ++ bs "cde") = Some (wa + wb) /\
    terminal_utf8_strlen (bs "ab") = Some ka /\
    terminal_utf8_strlen (bs "cde") = Some kb /\
    terminal_utf8_strlen (bs "ab" ++ bs "cde") = Some (ka + kb).
Proof.
  apply (width_of_concatenation (bs "ab") (bs "cde")).
  vm_compute. reflexivity.
Defined.

End WidthLaws.

(** ** Further properties of styling *)

Section PrintableAndCase.
Import Utf8 Color.

Lemma printable_loops (s : bytes) :
  printable s = true ->
  forall fuel w, (length s <= fuel)%nat ->
    display_width_loop fuel s w = Some (w + Z.of_nat (length s)) /\
    utf8_strlen_loop fuel s w = Some (w + Z.of_nat (length s)) /\
    has_csi s = false.
Proof.
  induction s as [|c s IH]; intros Hp fuel w Hf.
  - destruct fuel; cbn; repeat split; f_equal; lia.
  - cbn [printable forallb] in Hp.
    apply andb_prop in Hp. destruct Hp as [Hc Hs].
    apply andb_prop in Hc. destruct Hc as [Hlo Hhi].
    apply Z.leb_le in Hlo, Hhi.
    destruct fuel as [|fuel]; [cbn in Hf; lia|].
    assert (Hcw : terminal_utf8_char_width (c :: s) = (1, 1%nat)).
    { unfold terminal_utf8_char_width.
      destruct (Z.ltb_spec (code c) 128); [|lia].
      unfold unicode_char_width.
      destruct (Z.ltb_spec (code c) 32); [lia|].
      destruct (Z.eqb_spec (code c) 127); [lia|]. cbn [orb].
      destruct (Z.ltb_spec (code c) 127); [reflexivity | lia]. }
    cbn [display_width_loop utf8_strlen_loop]. rewrite Hcw. cbn [skipn].
    cbn [length] in Hf.
    destruct (IH Hs fuel (w + 1) ltac:(lia)) as (Hd & Hk & Hcsi).
    rewrite Hd, Hk. cbn [length].
    repeat split; try (f_equal; lia).
    cbn [has_csi]. rewrite Hcsi, orb_false_r.
    unfold csi_start. destruct s; [reflexivity|].
    destruct (Z.eqb_spec (code c) 27); [lia | reflexivity].
Qed.

(** X2.  On a string of printable ASCII bytes (32 to 126) the display
    width, the character count and the stripped display width all equal the
    number of bytes. *)
Theorem printable_ascii_measures :
  forall s : bytes,
    printable s = true ->
    terminal_display_width s = Some (Z.of_nat (length s)) /\
    terminal_utf8_strlen s = Some (Z.of_nat (length s)) /\
    display_width_strip_ansi s = Some (Z.of_nat (length s)).
Proof.
  intros s Hp.
  destruct (printable_loops s Hp (length s) 0 (le_n _)) as (Hd & Hk & Hcsi).
  unfold terminal_display_width, terminal_utf8_strlen, display_width_strip_ansi.
  rewrite strip_loop_without_csi by assumption.
  rewrite Hd, Hk. repeat split.
Qed.

Lemma printable_ascii_measures_witness :
  printable (bs "Alice") = true /\
  terminal_display_width (bs "Alice") = Some 5 /\
  terminal_utf8_strlen (bs "Alice") = Some 5 /\
  display_width_strip_ansi (bs "Alice") = Some 5.
Proof.
  split; [reflexivity|].
  apply (printable_ascii_measures (bs "Alice")). reflexivity.
Defined.

(** *** Case-insensitive color names *)

Ltac all_bytes c := destruct c as [[] [] [] [] [] [] [] []]; vm_compute; reflexivity.

Lemma tolower_toupper (c : ascii) : tolower (toupper c) = tolower c.
Proof. all_bytes c. Qed.

Lemma toupper_nul (c : ascii) : (code (toupper c) =? 0) = (code c =? 0).
Proof. all_bytes c. Qed.

Lemma toupper_hash (c : ascii) : (code (toupper c) =? 35) = (code c =? 35).
Proof. all_bytes c. Qed.

Lemma hex_digit_toupper (c : ascii) : hex_digit (toupper c) = hex_digit c.
Proof. all_bytes c. Qed.

Lemma c_str_toupper (s : bytes) : c_str (map toupper s) = map toupper (c_str s).
Proof.
  induction s as [|c s IH]; [reflexivity|].
  cbn [map c_str]. rewrite toupper_nul.
  destruct (code c =? 0); [reflexivity|]. cbn [map]. now rewrite IH.
Qed.

Lemma strcasecmp_toupper (a b : bytes) :
  strcasecmp_eq (map toupper a) b = strcasecmp_eq a b.
Proof.
  unfold strcasecmp_eq. rewrite c_str_toupper, map_map.
  rewrite (map_ext _ _ tolower_toupper). reflexivity.
Qed.

Lemma find_named_toupper (name : bytes) (cm : list (string * Z * Z)) :
  find_named (map toupper name) cm = find_named name cm.
Proof.
  induction cm as [|[[n fg] bg] cm IH]; [reflexivity|].
  cbn [find_named]. now rewrite strcasecmp_toupper, IH.
Qed.

Lemma scan_hex_toupper (ds : bytes) :
  forall acc, scan_hex (map toupper ds) acc = scan_hex ds acc.
Proof.
  induction ds as [|d ds IH]; intros acc; [reflexivity|].
  cbn [map scan_hex]. rewrite hex_digit_toupper.
  destruct (hex_digit d); [cbn [obind]; apply IH | reflexivity].
Qed.

Lemma parse_color_toupper state name is_bg size :
  terminal_parse_color state (ZString (map toupper name)) is_bg size
  = terminal_parse_color state (ZString name) is_bg size.
Proof.
  unfold terminal_parse_color.
  rewrite length_map, find_named_toupper.
  rewrite !skipn_map, !firstn_map, !scan_hex_toupper.
  replace (byte_at (map toupper name) 0 =? 35) with (byte_at name 0 =? 35);
    [reflexivity|].
  unfold byte_at. destruct name as [|c name]; [reflexivity|].
  cbn [map nth]. now rewrite toupper_hash.
Qed.

End PrintableAndCase.

Section FragmentFacts.
Import Utf8 Color.

(** *** Shape of the fragments *)

Lemma fmt_d_byte (n : Z) :
  0 <= n <= 255 ->
  (1 <= length (fmt_d n) <= 3)%nat /\ forallb sgr_char (fmt_d n) = true.
Proof.
  intros Hn.
  assert (Hall : forallb (fun k =>
             let t := fmt_d (Z.of_nat k) in
             (1 <=? length t)%nat && (length t <=? 3)%nat && forallb sgr_char t)
             (seq 0 256) = true) by (vm_compute; reflexivity).
  rewrite forallb_forall in Hall.
  specialize (Hall (Z.to_nat n)).
  rewrite Z2Nat.id in Hall by lia.
  assert (Hin : In (Z.to_nat n) (seq 0 256)) by (apply in_seq; lia).
  specialize (Hall Hin). cbv zeta in Hall.
  apply andb_prop in Hall. destruct Hall as [Hlen Hchars].
  apply andb_prop in Hlen. destruct Hlen as [Hlo Hhi].
  apply Nat.leb_le in Hlo, Hhi. auto.
Qed.

Lemma good_fragment_app (a b : bytes) (n m : nat) :
  forallb sgr_char a = true -> (length a <= n)%nat ->
  forallb sgr_char b = true -> (length b <= m)%nat ->
  forallb sgr_char (a ++ b) = true /\ (length (a ++ b) <= n + m)%nat.
Proof.
  intros Ha Hla Hb Hlb. rewrite forallb_app, length_app, Ha, Hb.
  split; [reflexivity | lia].
Qed.








End FragmentFacts.

Section JoinFacts.
Import Utf8 Color.









End JoinFacts.

Section StyleLaws.
Import Utf8 Color.

(** X4.  The colour resolver ignores letter case: a colour name or a hex
    colour given in upper case resolves exactly as the original string, at
    every capability tier and for foreground and background. *)
Theorem color_values_ignore_case :
  forall (state : option terminal_state_t) (name : bytes) (is_bg size : Z),
    terminal_parse_color state (ZString (map toupper name)) is_bg size
    = terminal_parse_color state (ZString name) is_bg size.
Proof.
  intros. apply parse_color_toupper.
Qed.

(** X5.  At the TrueColor tier an RGB colour, given as a three-element
    array or as [#rrggbb], resolves to the fragment [38;2;r;g;b] (foreground)
    or [48;2;r;g;b] (background) with the channels in decimal, and the
    32-byte buffer of the caller holds it whole. *)
Theorem rgb_at_truecolor :
  forall (st : terminal_state_t) (color : zval) (r g b is_bg : Z),
    0 <= r <= 255 -> 0 <= g <= 255 -> 0 <= b <= 255 ->
    color = rgb_array r g b \/ color = rgb_hex r g b ->
    COLOR_TRUECOLOR <= color_support st ->
    terminal_parse_color (Some st) color is_bg 32 =
    Some (stored (bs (if is_bg =? 0 then "38;2;" else "48;2;") ++
                  fmt_d r ++ bs ";" ++ fmt_d g ++ bs ";" ++ fmt_d b)).
Proof.
  intros st color r g b is_bg Hr Hg Hb Hcolor Hcs.
  rewrite (parse_color_rgb (Some st) r g b is_bg color Hr Hg Hb Hcolor).
  destruct (fmt_d_byte r Hr) as [Hlr _].
  destruct (fmt_d_byte g Hg) as [Hlg _].
  destruct (fmt_d_byte b Hb) as [Hlb _].
  unfold emit_rgb.
  destruct (Z.leb_spec COLOR_TRUECOLOR (color_support st)); [|lia].
  f_equal.
  destruct (is_bg =? 0).
  - change (fmt_d 38 ++ bs ";2;" ++ fmt_d r ++ bs ";" ++ fmt_d g ++ bs ";" ++ fmt_d b)
      with (bs "38;2;" ++ fmt_d r ++ bs ";" ++ fmt_d g ++ bs ";" ++ fmt_d b).
    apply snprintf_fits. rewrite !length_app.
    cbn [bs list_ascii_of_string length]. lia.
  - change (fmt_d 48 ++ bs ";2;" ++ fmt_d r ++ bs ";" ++ fmt_d g ++ bs ";" ++ fmt_d b)
      with (bs "48;2;" ++ fmt_d r ++ bs ";" ++ fmt_d g ++ bs ";" ++ fmt_d b).
    apply snprintf_fits. rewrite !length_app.
    cbn [bs list_ascii_of_string length]. lia.
Qed.

Lemma rgb_at_truecolor_witness :
  terminal_parse_color (Some (state_with_colors COLOR_TRUECOLOR))
    (rgb_array 255 136 0) 0 32 = Some (stored (bs "38;2;255;136;0")).
Proof.
  apply (rgb_at_truecolor (state_with_colors COLOR_TRUECOLOR)
           (rgb_array 255 136 0) 255 136 0 0
           ltac:(lia) ltac:(lia) ltac:(lia) (or_introl eq_refl)).
  cbn. unfold COLOR_TRUECOLOR. lia.
Defined.








End StyleLaws.

(** ** Further properties of the output buffer *)

Section BufferLaws.
Import Output Session.

Lemma set_write_buffer_same (st : terminal_state_t) :
  set_write_buffer st (write_buffer st) (write_buffer_pos st) = st.
Proof. destruct st; reflexivity. Qed.

Lemma write_loop_small (fuel : nat) (st : terminal_state_t) (out : list bytes)
    (str : bytes) :
  state_ok st ->
  write_buffer_pos st + Z.of_nat (length str) < WRITE_BUFFER_SIZE ->
  exists buf',
    write_loop (S fuel) st out str
    = Some (set_write_buffer st buf' (write_buffer_pos st + Z.of_nat (length str)), out) /\
    length buf' = Z.to_nat WRITE_BUFFER_SIZE /\
    firstn (Z.to_nat (write_buffer_pos st + Z.of_nat (length str))) buf'
    = pending_of st ++ str.
Proof.
  pose proof WRITE_BUFFER_SIZE_bounds as HS.
  intros [Hpos Hlen] Hsmall.
  destruct str as [|c s].
  - exists (write_buffer st). cbn [write_loop length Z.of_nat].
    rewrite Z.add_0_r, set_write_buffer_same, app_nil_r. auto.
  - set (str := c :: s) in *.
    assert (Hstr : (1 <= length str)%nat) by (subst str; cbn [length]; lia).
    assert (Hloop : write_loop (S fuel) st out str
                    = write_loop fuel
                        (set_write_buffer st
                           (memcpy_at (write_buffer st) (Z.to_nat (write_buffer_pos st)) str)
                           (write_buffer_pos st + Z.of_nat (length str)))
                        out []).
    { subst str. cbn [write_loop]. cbv zeta.
      set (str := c :: s) in *.
      unfold size_t.
      rewrite (Z.mod_small (WRITE_BUFFER_SIZE - write_buffer_pos st)) by lia.
      destruct (Z.ltb_spec (Z.of_nat (length str))
                           (WRITE_BUFFER_SIZE - write_buffer_pos st)); [|lia].
      rewrite Nat2Z.id, firstn_all, skipn_all.
      cbn [write_buffer_pos set_write_buffer].
      destruct (Z.leb_spec WRITE_BUFFER_SIZE
                           (write_buffer_pos st + Z.of_nat (length str))); [lia|].
      reflexivity. }
    rewrite Hloop.
    eexists. split; [destruct fuel; reflexivity|].
    split.
    + rewrite memcpy_at_length; [assumption | lia].
    + unfold pending_of. rewrite Z2Nat.inj_add, Nat2Z.id by lia.
      apply memcpy_at_prefix. lia.
Qed.

(** A write that leaves the buffer short of its capacity. *)
Lemma terminal_write_small (w : world) (st : terminal_state_t) (str : bytes) :
  G_state w = Some st -> state_ok st ->
  write_buffer_pos st + Z.of_nat (length str) < WRITE_BUFFER_SIZE ->
  exists st',
    terminal_write w str = Some (set_G_state w (Some st')) /\
    state_ok st' /\
    config st' = config st /\
    state_flags st' = state_flags st /\
    write_buffer_pos st' = write_buffer_pos st + Z.of_nat (length str) /\
    pending_of st' = pending_of st ++ str.
Proof.
  intros Hst Hok Hsmall.
  destruct (write_loop_small (length str) st (stdout_writes w) str Hok Hsmall)
    as (buf' & Hrun & Hlen & Hpend).
  unfold terminal_write. rewrite Hst, Hrun. cbn [obind].
  eexists. split; [destruct w; reflexivity|].
  destruct Hok as [Hpos _].
  repeat split; cbn [write_buffer_pos write_buffer set_write_buffer]; try lia;
    try assumption.
Qed.



(** X8.  A write that leaves room in the buffer is only buffered: nothing
    reaches standard output, the cursor advances by the number of bytes and
    the bytes are appended to the pending ones. *)
Theorem small_write_is_buffered :
  forall (w : world) (st : terminal_state_t) (str : bytes),
    G_state w = Some st -> state_ok st ->
    write_buffer_pos st + Z.of_nat (length str) < WRITE_BUFFER_SIZE ->
    exists w',
      terminal_write w str = Some w' /\
      stdout_writes w' = stdout_writes w /\
      cursor w' = cursor w + Z.of_nat (length str) /\
      pending w' = pending w ++ str.
Proof.
  intros w st str Hst Hok Hsmall.
  destruct (terminal_write_small w st str Hst Hok Hsmall)
    as (st' & Hw & _ & _ & _ & Hpos & Hpend).
  eexists. split; [exact Hw|].
  unfold cursor, pending. rewrite Hst.
  cbn [G_state stdout_writes set_G_state]. auto.
Qed.

Lemma small_write_is_buffered_witness :
  exists w',
    terminal_write fresh_world (bs "hello") = Some w' /\
    stdout_writes w' = stdout_writes fresh_world /\
    cursor w' = cursor fresh_world + 5 /\
    pending w' = pending fresh_world ++ bs "hello".
Proof.
  apply (small_write_is_buffered fresh_world
           (terminal_init_state cooked_termios) (bs "hello")).
  - reflexivity.
  - exact fresh_world_ok.
  - cbn. unfold WRITE_BUFFER_SIZE. lia.
Defined.



End BufferLaws.

(** ** Properties of the session life cycle *)

Section ExitFacts.
Import Output Session Lifecycle.

Lemma set_G_state_same (w : world) (st : terminal_state_t) :
  G_state w = Some st -> set_G_state w (Some st) = w.
Proof. destruct w; cbn. now intros ->. Qed.

Lemma flush_shape (w : world) (st : terminal_state_t) :
  G_state w = Some st -> state_ok st ->
  exists st0,
    terminal_flush_buffer w
    = set_stdout_writes (set_G_state w (Some st0))
        (stdout_writes w ++
         (if 0 <? write_buffer_pos st then [pending_of st] else [])) /\
    state_ok st0 /\ config st0 = config st /\
    state_flags st0 = state_flags st /\ write_buffer_pos st0 = 0 /\
    pending_of st0 = [].
Proof.
  pose proof WRITE_BUFFER_SIZE_bounds as HS.
  intros Hst [Hpos Hlen]. unfold terminal_flush_buffer, flush_state. rewrite Hst.
  destruct (Z.ltb_spec 0 (write_buffer_pos st)).
  - eexists. split; [reflexivity|].
    unfold state_ok, config, pending_of.
    cbn [write_buffer_pos write_buffer set_write_buffer original_termios
         raw_termios color_support cols rows tty_fd resize_pending state_flags].
    repeat split; try assumption; lia.
  - exists st. rewrite app_nil_r.
    assert (Hz : write_buffer_pos st = 0) by lia.
    split; [destruct w; cbn in *; now subst|].
    unfold state_ok, pending_of. rewrite Hz.
    repeat split; try assumption; lia.
Qed.

(** One "if the flag is set: write the sequence, clear the flag" block of
    [terminal_exit_raw]. *)
Lemma clear_block (w : world) (st : terminal_state_t) (bit : Z) (seq : bytes)
    (op : world -> option world) :
  (forall w0, op w0 = (w1 <- terminal_write_str w0 seq ;;
                       Some (update_flags w1 (fun fl => Z.land fl (Z.lnot bit))))) ->
  G_state w = Some st -> state_ok st ->
  write_buffer_pos st + Z.of_nat (length (c_str seq)) < WRITE_BUFFER_SIZE ->
  exists st',
    (if flag_set (cur_flags w) bit then op w else Some w)
    = Some (set_G_state w (Some st')) /\
    state_ok st' /\ config st' = config st /\
    flag_set (state_flags st') bit = false /\
    (forall other, Z.land bit other = 0 ->
                   flag_set (state_flags st') other = flag_set (state_flags st) other) /\
    write_buffer_pos st'
    = write_buffer_pos st +
      Z.of_nat (length (if flag_set (state_flags st) bit then c_str seq else [])) /\
    pending_of st'
    = pending_of st ++ (if flag_set (state_flags st) bit then c_str seq else []).
Proof.
  intros Hop Hst Hok Hsmall.
  assert (Hcur : cur_flags w = state_flags st) by (unfold cur_flags; now rewrite Hst).
  rewrite Hcur.
  destruct (flag_set (state_flags st) bit) eqn:Hbit.
  - rewrite Hop. unfold terminal_write_str.
    destruct (terminal_write_small w st (c_str seq) Hst Hok Hsmall)
      as (st1 & Hw & Hok1 & Hcfg & Hfl & Hpos & Hpend).
    rewrite Hw. cbn [obind].
    exists (set_state_flags st1 (Z.land (state_flags st1) (Z.lnot bit))).
    split; [reflexivity|].
    unfold state_ok, config, pending_of in *.
    cbn [write_buffer_pos write_buffer set_state_flags original_termios
         raw_termios color_support cols rows tty_fd resize_pending state_flags].
    rewrite Hfl.
    repeat split; try tauto.
    + apply flag_cleared.
    + intros other Hdisj. now apply flag_kept.
  - exists st. rewrite set_G_state_same by assumption.
    cbn [length Z.of_nat]. rewrite Z.add_0_r, app_nil_r.
    repeat split; try apply Hok; auto.
Qed.

(** Complete effect of [terminal_exit_raw] in raw mode, for either outcome
    of the restoring [tcsetattr]. *)
Lemma exit_raw_effect (w : world) (st : terminal_state_t) (ret : Z) :
  G_state w = Some st -> state_ok st ->
  flag_set (state_flags st) TERM_STATE_RAW = true ->
  exists w' st',
    terminal_exit_raw w ret = Some (w', if ret =? -1 then -1 else 0) /\
    G_state w' = Some st' /\ state_ok st' /\ config st' = config st /\
    stdout_writes w'
    = stdout_writes w ++ (if 0 <? write_buffer_pos st then [pending_of st] else []) /\
    pending_of st' = exit_sequences (state_flags st) /\
    flag_set (state_flags st') TERM_STATE_CURSOR_HIDDEN = false /\
    flag_set (state_flags st') TERM_STATE_ALT_SCREEN = false /\
    flag_set (state_flags st') TERM_STATE_RAW = (ret =? -1) /\
    tty_settings w' = (if ret =? -1 then tty_settings w else original_termios st) /\
    engine_handlers w' = (if ret =? -1 then engine_handlers w else false).
Proof.
  pose proof WRITE_BUFFER_SIZE_bounds as HS.
  intros Hst Hok Hraw.
  unfold terminal_exit_raw. rewrite Hst, Hraw. cbn [negb].
  destruct (flush_shape w st Hst Hok) as (st0 & Hflush & Hok0 & Hcfg0 & Hfl0 & Hpos0 & Hpend0).
  rewrite Hflush.
  set (wf := set_stdout_writes (set_G_state w (Some st0)) _).
  assert (Hwf : G_state wf = Some st0) by reflexivity.
  destruct (clear_block wf st0 TERM_STATE_CURSOR_HIDDEN (ESC :: bs "[?25h")
              (fun w0 => terminal_cursor_show w0 1) (fun _ => eq_refl) Hwf Hok0)
    as (st1 & Hstep1 & Hok1 & Hcfg1 & Hoff1 & Hkeep1 & Hpos1 & Hpend1).
  { rewrite Hpos0. unfold WRITE_BUFFER_SIZE. cbn. lia. }
  rewrite Hstep1. cbn [obind].
  set (w1 := set_G_state wf (Some st1)).
  assert (Hw1 : G_state w1 = Some st1) by reflexivity.
  destruct (clear_block w1 st1 TERM_STATE_ALT_SCREEN (ESC :: bs "[?1049l")
              (fun w0 => terminal_alternate_screen w0 0) (fun _ => eq_refl) Hw1 Hok1)
    as (st2 & Hstep2 & Hok2 & Hcfg2 & Hoff2 & Hkeep2 & Hpos2 & Hpend2).
  { rewrite Hpos1, Hpos0.
    destruct (flag_set (state_flags st0) TERM_STATE_CURSOR_HIDDEN);
      unfold WRITE_BUFFER_SIZE; cbn; lia. }
  rewrite Hstep2. cbn [obind].
  assert (Hseq : pending_of st2 = exit_sequences (state_flags st)).
  { rewrite Hpend2, Hpend1, Hpend0. unfold exit_sequences.
    rewrite (Hkeep1 TERM_STATE_ALT_SCREEN eq_refl), Hfl0.
    destruct (flag_set (state_flags st) TERM_STATE_CURSOR_HIDDEN),
      (flag_set (state_flags st) TERM_STATE_ALT_SCREEN); reflexivity. }
  assert (Hraw2 : flag_set (state_flags st2) TERM_STATE_RAW = true).
  { rewrite (Hkeep2 TERM_STATE_RAW eq_refl), (Hkeep1 TERM_STATE_RAW eq_refl), Hfl0.
    exact Hraw. }
  assert (Hhid2 : flag_set (state_flags st2) TERM_STATE_CURSOR_HIDDEN = false).
  { rewrite (Hkeep2 TERM_STATE_CURSOR_HIDDEN eq_refl). exact Hoff1. }
  assert (Hcfg : config st2 = config st) by congruence.
  destruct (ret =? -1) eqn:Hret.
  - eexists. exists st2. split; [reflexivity|].
    subst w1 wf.
    cbn [G_state stdout_writes tty_settings engine_handlers set_G_state
         set_stdout_writes].
    repeat split; try assumption; try reflexivity; apply Hok2.
  - eexists.
    exists (set_state_flags st2 (Z.land (state_flags st2) (Z.lnot TERM_STATE_RAW))).
    split; [reflexivity|].
    subst w1 wf.
    cbn [G_state stdout_writes tty_settings engine_handlers set_G_state
         set_stdout_writes apply_termios update_flags
         terminal_restore_signal_handlers].
    unfold state_ok, config, pending_of in *.
    cbn [write_buffer_pos write_buffer set_state_flags original_termios
         raw_termios color_support cols rows tty_fd resize_pending state_flags].
    repeat split; try tauto.
    + rewrite flag_kept by reflexivity. exact Hhid2.
    + rewrite flag_kept by reflexivity. exact Hoff2.
    + apply flag_cleared.
Qed.

End ExitFacts.

Section LifecycleLaws.
Import Output Session Lifecycle.

Lemma flag_raised (fl bit : Z) :
  bit <> 0 -> flag_set (Z.lor fl bit) bit = true.
Proof.
  intros Hbit. unfold flag_set.
  replace (Z.land (Z.lor fl bit) bit) with bit.
  - destruct (Z.eqb_spec bit 0); [contradiction | reflexivity].
  - apply Z.bits_inj'. intros n Hn.
    rewrite Z.land_spec, Z.lor_spec.
    destruct (Z.testbit fl n), (Z.testbit bit n); reflexivity.
Qed.

(** Complete effect of a [terminal_enter_raw] that the operating system lets
    through. *)
Lemma enter_raw_effect (pf : termios_bits) (os : os_answers) (w : world)
    (st : terminal_state_t) :
  G_state w = Some st -> state_ok st ->
  flag_set (state_flags st) TERM_STATE_RAW = false ->
  os_accepts os = true ->
  exists w1 st1,
    terminal_enter_raw pf os w = Some (w1, 0) /\
    G_state w1 = Some st1 /\ state_ok st1 /\
    original_termios st1 = tty_settings w /\
    raw_termios st1 = make_raw pf (tty_settings w) /\
    tty_settings w1 = make_raw pf (tty_settings w) /\
    flag_set (state_flags st1) TERM_STATE_RAW = true /\
    color_support st1
    = terminal_detect_color_support (env_TERM os) (env_COLORTERM os)
                                    (stdout_isatty os) /\
    engine_handlers w1 = true /\
    stdout_writes w1 = stdout_writes w /\
    pending_of st1 = pending_of st.
Proof.
  intros Hst Hok Hraw Hos.
  unfold os_accepts in Hos.
  apply andb_prop in Hos. destruct Hos as [Hos Hset].
  apply andb_prop in Hos. destruct Hos as [Htty Hget].
  apply negb_true_iff in Hset.
  unfold terminal_enter_raw. rewrite Hst, Hraw, Htty, Hget, Hset. cbn [negb].
  destruct (winsize os) as [[c r]|];
    (eexists; eexists; split; [reflexivity|];
     cbn [G_state stdout_writes tty_settings engine_handlers set_G_state
          apply_termios update_flags terminal_update_size
          terminal_setup_signal_handlers update_size_state];
     split; [reflexivity|];
     unfold state_ok, pending_of in *;
     cbn [write_buffer_pos write_buffer set_state_flags set_size set_termios
          set_tty_fd set_color_support original_termios raw_termios
          color_support state_flags];
     repeat split; try apply Hok;
     apply flag_raised; discriminate).
Qed.

(** X10.  Round trip of the session: from a state that is not raw, with a
    terminal on standard input that accepts the calls, entering raw mode
    installs the derived raw settings, raises the raw flag and installs the
    handlers; entering again changes nothing; a successful exit puts back
    the settings the terminal had before, clears the raw flag and removes
    the handlers. *)
Theorem enter_exit_round_trip :
  forall (pf : termios_bits) (os : os_answers) (w : world) (st : terminal_state_t),
    G_state w = Some st -> state_ok st ->
    flag_set (state_flags st) TERM_STATE_RAW = false ->
    os_accepts os = true ->
    exists w1 w2,
      terminal_enter_raw pf os w = Some (w1, 0) /\
      tty_settings w1 = make_raw pf (tty_settings w) /\
      flag_set (cur_flags w1) TERM_STATE_RAW = true /\
      engine_handlers w1 = true /\
      terminal_enter_raw pf os w1 = Some (w1, 0) /\
      terminal_exit_raw w1 0 = Some (w2, 0) /\
      tty_settings w2 = tty_settings w /\
      flag_set (cur_flags w2) TERM_STATE_RAW = false /\
      engine_handlers w2 = false.
Proof.
  intros pf os w st Hst Hok Hraw Hos.
  destruct (enter_raw_effect pf os w st Hst Hok Hraw Hos)
    as (w1 & st1 & Henter & Hst1 & Hok1 & Horig & _ & Htty1 & Hraw1 & _ & Hsig1 & _).
  destruct (exit_raw_effect w1 st1 0 Hst1 Hok1 Hraw1)
    as (w2 & st2 & Hexit & Hst2 & _ & _ & _ & _ & _ & _ & Hraw2 & Htty2 & Hsig2).
  exists w1, w2. unfold cur_flags. rewrite Hst1, Hst2.
  cbn [Z.eqb] in *.
  repeat split; try assumption; try congruence.
  unfold terminal_enter_raw. now rewrite Hst1, Hraw1.
Qed.

Lemma enter_exit_round_trip_witness :
  exists w1 w2,
    terminal_enter_raw linux_bits xterm_answers fresh_world = Some (w1, 0) /\
    tty_settings w1 = make_raw linux_bits (tty_settings fresh_world) /\
    flag_set (cur_flags w1) TERM_STATE_RAW = true /\
    engine_handlers w1 = true /\
    terminal_enter_raw linux_bits xterm_answers w1 = Some (w1, 0) /\
    terminal_exit_raw w1 0 = Some (w2, 0) /\
    tty_settings w2 = tty_settings fresh_world /\
    flag_set (cur_flags w2) TERM_STATE_RAW = false /\
    engine_handlers w2 = false.
Proof.
  apply (enter_exit_round_trip linux_bits xterm_answers fresh_world
           (terminal_init_state cooked_termios)).
  - reflexivity.
  - exact fresh_world_ok.
  - reflexivity.
  - reflexivity.
Defined.

(** X11.  A successful exit from raw mode clears the raw, cursor-hidden
    and alternate-screen flags, restores the saved settings and the signal
    dispositions, and any further exit is a no-op that reports success. *)
Theorem exit_restores_and_is_idempotent :
  forall (w : world) (st : terminal_state_t) (ret ret' : Z),
    G_state w = Some st -> state_ok st ->
    flag_set (state_flags st) TERM_STATE_RAW = true ->
    ret <> -1 ->
    exists w',
      terminal_exit_raw w ret = Some (w', 0) /\
      flag_set (cur_flags w') TERM_STATE_RAW = false /\
      flag_set (cur_flags w') TERM_STATE_CURSOR_HIDDEN = false /\
      flag_set (cur_flags w') TERM_STATE_ALT_SCREEN = false /\
      tty_settings w' = original_termios st /\
      engine_handlers w' = false /\
      terminal_exit_raw w' ret' = Some (w', 0).
Proof.
  intros w st ret ret' Hst Hok Hraw Hret.
  destruct (exit_raw_effect w st ret Hst Hok Hraw)
    as (w' & st' & Hexit & Hst' & _ & _ & _ & _ & Hh & Ha & Hraw' & Htty & Hsig).
  destruct (Z.eqb_spec ret (-1)) as [|_]; [contradiction|].
  exists w'. unfold cur_flags. rewrite Hst'.
  repeat split; try assumption.
  unfold terminal_exit_raw. now rewrite Hst', Hraw'.
Qed.

Lemma exit_restores_and_is_idempotent_witness :
  exists w',
    terminal_exit_raw raw_world 0 = Some (w', 0) /\
    flag_set (cur_flags w') TERM_STATE_RAW = false /\
    flag_set (cur_flags w') TERM_STATE_CURSOR_HIDDEN = false /\
    flag_set (cur_flags w') TERM_STATE_ALT_SCREEN = false /\
    tty_settings w' = cooked_termios /\
    engine_handlers w' = false /\
    terminal_exit_raw w' (-1) = Some (w', 0).
Proof.
  apply (exit_restores_and_is_idempotent raw_world
           (set_state_flags (terminal_init_state cooked_termios)
              (Z.lor TERM_STATE_RAW TERM_STATE_CURSOR_HIDDEN)) 0 (-1)).
  - reflexivity.
  - split; [cbn; unfold WRITE_BUFFER_SIZE; lia | apply repeat_length].
  - reflexivity.
  - discriminate.
Defined.

(** X12.  Exit flushes the output that was pending before the call, but
    the sequences it writes itself (show cursor, leave alternate screen,
    as the flags require) are left in the buffer: after the call exactly
    they are pending, whether or not the restore succeeds. *)
Theorem exit_leaves_restore_sequences_pending :
  forall (w : world) (st : terminal_state_t) (ret : Z),
    G_state w = Some st -> state_ok st ->
    flag_set (state_flags st) TERM_STATE_RAW = true ->
    exists w' code,
      terminal_exit_raw w ret = Some (w', code) /\
      stdout_writes w' = stdout_writes (terminal_flush_buffer w) /\
      pending w' = exit_sequences (state_flags st).
Proof.
  intros w st ret Hst Hok Hraw.
  destruct (exit_raw_effect w st ret Hst Hok Hraw)
    as (w' & st' & Hexit & Hst' & _ & _ & Hout & Hpend & _).
  exists w'. eexists. split; [exact Hexit|].
  destruct (flush_shape w st Hst Hok) as (st0 & Hflush & _).
  rewrite Hflush. unfold pending. rewrite Hst'.
  cbn [stdout_writes set_stdout_writes]. auto.
Qed.

Lemma exit_leaves_restore_sequences_pending_witness :
  exists w' code,
    terminal_exit_raw raw_world 0 = Some (w', code) /\
    stdout_writes w' = stdout_writes (terminal_flush_buffer raw_world) /\
    pending w' = ESC :: bs "[?25h".
Proof.
  apply (exit_leaves_restore_sequences_pending raw_world
           (set_state_flags (terminal_init_state cooked_termios)
              (Z.lor TERM_STATE_RAW TERM_STATE_CURSOR_HIDDEN)) 0).
  - reflexivity.
  - split; [cbn; unfold WRITE_BUFFER_SIZE; lia | apply repeat_length].
  - reflexivity.
Defined.



(** X14.  Capability detection yields one of the tiers Basic16,
    Extended256, TrueColor unless it yields None, and None only when [TERM]
    is [dumb] or standard output is not a terminal. *)
Theorem colors_off_only_for_dumb_or_pipe :
  forall (term colorterm : option bytes) (stdout_tty : bool),
    let tier := terminal_detect_color_support term colorterm stdout_tty in
    COLOR_16 <= tier <= COLOR_TRUECOLOR \/
    (tier = COLOR_NONE /\
     ((exists t, term = Some t /\ strcmp_eq t (bs "dumb") = true) \/
      stdout_tty = false)).
Proof.
  intros term colorterm stdout_tty.
  unfold terminal_detect_color_support. cbv zeta.
  assert (H16 : COLOR_16 <= COLOR_16 <= COLOR_TRUECOLOR) by (vm_compute; intuition discriminate).
  assert (H256 : COLOR_16 <= COLOR_256 <= COLOR_TRUECOLOR) by (vm_compute; intuition discriminate).
  assert (Htc : COLOR_16 <= COLOR_TRUECOLOR <= COLOR_TRUECOLOR) by (vm_compute; intuition discriminate).
  destruct (match colorterm with
            | Some ct => strcmp_eq ct (bs "truecolor") || strcmp_eq ct (bs "24bit")
            | None => false
            end); [auto|].
  destruct term as [t|].
  - destruct (strstr t "truecolor" || strstr t "24bit"); [auto|].
    destruct (strstr t "256color" || strstr t "256"); [auto|].
    destruct (strstr t "color" || strstr t "xterm" || strstr t "screen" ||
              strstr t "vt100" || strstr t "linux" || strstr t "ansi"); [auto|].
    destruct (strcmp_eq t (bs "dumb")) eqn:Hdumb.
    + right. split; [reflexivity|]. left. eauto.
    + destruct stdout_tty; auto.
  - destruct stdout_tty; auto.
Qed.

End LifecycleLaws.

(** ** Further properties of key parsing *)

Section KeyLaws.
Import Utf8 Keys.

Lemma esc_keys_named (r : key_result) :
  In r esc_keys -> ret r = 1 /\ key_name r <> [] /\ key_char r = [].
Proof.
  unfold esc_keys. cbn [map In].
  intros H.
  repeat (destruct H as [<- | H]; [repeat split; discriminate|]).
  contradiction.
Qed.

(** X16.  Every non-empty input chunk yields a key event with a non-empty
    name.  Either the event carries no character, or it is named [char] and
    carries the first character of the chunk, one to four bytes long. *)
Theorem every_chunk_is_a_key :
  forall (c : ascii) (rest : bytes),
    let buf := c :: rest in
    let r := parse_input buf 32 in
    ret r = 1 /\ key_name r <> [] /\
    (key_char r = [] \/
     (key_name r = bs "char" /\
      key_char r = firstn (snd (terminal_utf8_char_width buf)) buf /\
      (1 <= length (key_char r) <= 4)%nat)).
Proof.
  intros c rest buf r. subst r.
  destruct (Z.eqb_spec (byte_at buf 0) 27) as [Hesc|Hesc].
  { destruct (esc_keys_named _ (esc_chunk_keys buf Hesc)) as (H1 & H2 & H3). auto. }
  unfold parse_input. cbv zeta.
  destruct (Z.eqb_spec (byte_at buf 0) 27) as [E|_]; [contradiction|].
  destruct (byte_at buf 0 <? 32).
  { repeat match goal with
           | |- context [if ?b then _ else _] => destruct b
           end; cbn [ret key_name key_char name_key]; repeat split;
      try discriminate; auto. }
  destruct (byte_at buf 0 =? 127).
  { cbn [ret key_name key_char name_key]. repeat split; try discriminate; auto. }
  pose proof (char_width_bytes c rest) as Hb. cbv zeta in Hb.
  fold buf in Hb.
  destruct (terminal_utf8_char_width buf) as [cw n]. cbn [snd] in *.
  destruct Hb as [[Hlo Hhi] Hlen].
  destruct (Nat.ltb_spec 0 n); [|lia].
  destruct (Nat.leb_spec n 4); [|lia].
  cbn [andb ret key_name key_char].
  split; [reflexivity|]. split; [discriminate|].
  right. split; [reflexivity|]. split; [reflexivity|].
  rewrite length_firstn. lia.
Qed.

Lemma byte_conditions (n : nat) :
  (5 <= n)%nat ->
  (Z.of_nat n =? 1) = false /\ (4 <=? Z.of_nat n) = true /\
  (5 <=? Z.of_nat n) = true.
Proof.
  intros H. repeat split;
    [apply Z.eqb_neq | apply Z.leb_le | apply Z.leb_le]; lia.
Qed.

Lemma char_width_first5 (a b c d e : ascii) (rest : bytes) :
  terminal_utf8_char_width (a :: b :: c :: d :: e :: rest)
  = terminal_utf8_char_width [a; b; c; d; e].
Proof. reflexivity. Qed.

(** X15.  At most the first five bytes of an input chunk decide the key
    event: parsing the chunk and parsing its first five bytes give the same
    result. *)
Theorem only_five_bytes_decide :
  forall buf : bytes, parse_input buf 32 = parse_input (firstn 5 buf) 32.
Proof.
  intros buf.
  destruct buf as [|a [|b [|c [|d [|e rest]]]]]; try reflexivity.
  cbn [firstn].
  unfold parse_input, csi_switch.
  cbv zeta.
  destruct (byte_conditions (length (a :: b :: c :: d :: e :: rest)))
    as (H1 & H4 & H5); [cbn [length]; lia|].
  destruct (byte_conditions (length [a; b; c; d; e]))
    as (H1' & H4' & H5'); [cbn [length]; lia|].
  rewrite H1, H4, H5, H1', H4', H5'.
  rewrite char_width_first5.
  pose proof (char_width_bytes a [b; c; d; e]) as Hb. cbv zeta in Hb.
  destruct (terminal_utf8_char_width [a; b; c; d; e]) as [cw n].
  cbn [snd] in Hb.
  assert (Hn : firstn n (a :: b :: c :: d :: e :: rest) = firstn n [a; b; c; d; e]).
  { destruct n as [|[|[|[|[|n]]]]]; try reflexivity. lia. }
  rewrite Hn. reflexivity.
Qed.

End KeyLaws.

(** ** Properties of the table layout *)

Section TableFitFacts.
Import Utf8 Table TableLayout.

Lemma store_length (cw : list Z) : forall i v, length (store cw i v) = length cw.
Proof.
  induction cw as [|x cw IH]; intros [|i] v; cbn [store length]; auto.
Qed.

Lemma store_sum (cw : list Z) :
  forall i v, (i < length cw)%nat ->
              sum_widths (store cw i v) = sum_widths cw - nth i cw 0 + v.
Proof.
  induction cw as [|x cw IH]; intros [|i] v Hi; cbn [length] in Hi; try lia;
    cbn [store sum_widths fold_right nth].
  - fold (sum_widths cw). lia.
  - fold (sum_widths cw). fold (sum_widths (store cw i v)).
    rewrite IH by lia. lia.
Qed.

Lemma store_shrunk (cw : list Z) :
  forall i, (i < length cw)%nat -> 3 < nth i cw 0 ->
            Forall2 shrunk cw (store cw i (nth i cw 0 - 1)).
Proof.
  assert (Hrefl : forall l, Forall2 shrunk l l).
  { induction l; constructor; [unfold shrunk; lia | assumption]. }
  induction cw as [|x cw IH]; intros [|i] Hi Hw; cbn [length] in Hi; try lia;
    cbn [store nth] in *.
  - constructor; [unfold shrunk; lia | apply Hrefl].
  - constructor; [unfold shrunk; lia | apply IH; [lia | assumption]].
Qed.

Lemma shrunk_trans (l1 l2 : list Z) :
  Forall2 shrunk l1 l2 -> forall l3, Forall2 shrunk l2 l3 -> Forall2 shrunk l1 l3.
Proof.
  induction 1 as [|x y l1 l2 Hxy H12 IH]; intros l3 H23; inversion H23; subst;
    constructor; [unfold shrunk in *; lia | now apply IH].
Qed.

(** The scan returns the first position of the maximum, unless nothing
    exceeds the running maximum it starts with. *)
Lemma widest_from_spec (cw : list Z) :
  forall i m0 c0 m c,
    widest_from cw i m0 c0 = (m, c) ->
    m0 <= m /\ Forall (fun x => x <= m) cw /\
    ((m = m0 /\ c = c0) \/
     (m0 < m /\ (i <= c)%nat /\ (c - i < length cw)%nat /\ nth (c - i) cw 0 = m)).
Proof.
  induction cw as [|x cw IH]; intros i m0 c0 m c H; cbn [widest_from] in H.
  - inversion H; subst. split; [lia|]. split; [constructor | left; auto].
  - destruct (Z.ltb_spec m0 x).
    + apply IH in H. destruct H as (Hm & Hall & Hcase).
      split; [lia|]. split; [constructor; [lia | assumption]|].
      right. destruct Hcase as [[-> ->] | (Hlt & Hic & Hlen & Hnth)].
      * replace (i - i)%nat with 0%nat by lia. cbn [nth length].
        repeat split; lia.
      * replace (c - i)%nat with (S (c - S i)) by lia. cbn [nth length].
        repeat split; (lia || assumption).
    + apply IH in H. destruct H as (Hm & Hall & Hcase).
      split; [lia|]. split; [constructor; [lia | assumption]|].
      destruct Hcase as [[-> ->] | (Hlt & Hic & Hlen & Hnth)]; [left; auto|].
      right. replace (c - i)%nat with (S (c - S i)) by lia. cbn [nth length].
      repeat split; (lia || assumption).
Qed.

Lemma shrink_columns_spec (excess : nat) :
  forall cw,
    let cw' := shrink_columns excess cw in
    length cw' = length cw /\
    Forall2 shrunk cw cw' /\
    sum_widths cw - Z.of_nat excess <= sum_widths cw' /\
    (sum_widths cw' = sum_widths cw - Z.of_nat excess \/
     Forall (fun x => x <= 3) cw').
Proof.
  assert (Hrefl : forall l, Forall2 shrunk l l).
  { induction l; constructor; [unfold shrunk; lia | assumption]. }
  induction excess as [|e IH]; intros cw; cbv zeta; cbn [shrink_columns].
  - repeat split; [apply Hrefl | lia | left; lia].
  - destruct (widest cw) as [m c] eqn:Hw.
    apply widest_from_spec in Hw. destruct Hw as (_ & Hall & Hcase).
    destruct (Z.leb_spec m 3).
    + repeat split; [apply Hrefl | lia|].
      right. eapply Forall_impl; [|exact Hall]. cbv beta. intros; lia.
    + destruct Hcase as [[-> _] | (_ & _ & Hlen & Hnth)]; [lia|].
      rewrite Nat.sub_0_r in Hlen, Hnth.
      specialize (IH (store cw c (nth c cw 0 - 1))). cbv zeta in IH.
      destruct IH as (IHl & IHs & IHsum & IHcase).
      rewrite store_length in IHl.
      rewrite store_sum in IHsum, IHcase by assumption.
      split; [assumption|]. split.
      * eapply shrunk_trans; [|exact IHs]. apply store_shrunk; [assumption | lia].
      * split; [lia|]. destruct IHcase as [IHc | IHc]; [left; lia | right; assumption].
Qed.

Lemma sum_widths_nonneg (cw : list Z) :
  Forall (fun x => 0 <= x) cw -> 0 <= sum_widths cw.
Proof.
  induction 1; cbn [sum_widths fold_right]; [lia|]. fold (sum_widths l). lia.
Qed.

(** Without wrap-around the running total is the plain sum. *)
Lemma total_width_from (border : bool) (padding : Z) (cw : list Z) :
  Forall (fun x => 0 <= x) cw -> 0 <= padding ->
  forall acc, 0 <= acc ->
    acc + sum_widths cw
    + Z.of_nat (length cw) * (padding * 2 + (if border then 1 else 0)) <= 2147483647 ->
    fold_left
      (fun acc w =>
         size_t (size_t (acc + size_t (w + padding * 2)) + (if border then 1 else 0)))
      cw acc
    = acc + sum_widths cw
      + Z.of_nat (length cw) * (padding * 2 + (if border then 1 else 0)).
Proof.
  intros Hpos Hpad.
  set (b := if border then 1 else 0).
  assert (Hb : 0 <= b <= 1) by (subst b; destruct border; lia).
  assert (H64 : 2147483647 < 2 ^ 64) by (vm_compute; reflexivity).
  induction Hpos as [|x l Hx Hl IH]; intros acc Hacc Hle;
    cbn [fold_left sum_widths fold_right length] in *; [lia|].
  fold (sum_widths l) in *.
  pose proof (sum_widths_nonneg l Hl) as Hs.
  rewrite Nat2Z.inj_succ in *.
  assert (Hrest : 0 <= Z.of_nat (length l) * (padding * 2 + b)) by nia.
  assert (Hexp : Z.succ (Z.of_nat (length l)) * (padding * 2 + b)
                 = Z.of_nat (length l) * (padding * 2 + b) + (padding * 2 + b)) by lia.
  rewrite Hexp in *.
  assert (Hstep : size_t (size_t (acc + size_t (x + padding * 2)) + b)
                  = acc + x + padding * 2 + b)
    by (unfold size_t; rewrite (Z.mod_small (x + padding * 2)) by lia;
        rewrite (Z.mod_small (acc + (x + padding * 2))) by lia;
        rewrite Z.mod_small by lia; lia).
  rewrite Hstep, IH by lia. lia.
Qed.

Lemma total_width_sum (border : bool) (padding : Z) (cw : list Z) :
  Forall (fun x => 0 <= x) cw -> 0 <= padding ->
  plain_width border padding cw <= 2147483647 ->
  total_width border padding cw = plain_width border padding cw.
Proof.
  intros Hpos Hpad Hle. unfold total_width, plain_width in *.
  apply total_width_from; try assumption. destruct border; lia.
Qed.

Lemma shrunk_nonneg (l1 l2 : list Z) :
  Forall2 shrunk l1 l2 -> Forall (fun x => 0 <= x) l1 -> Forall (fun x => 0 <= x) l2.
Proof.
  induction 1 as [|x y l1 l2 Hxy H12 IH]; intros Hpos; [constructor|].
  inversion Hpos; subst. constructor; [unfold shrunk in Hxy; lia | now apply IH].
Qed.

(** X17.  Fitting the columns with truncation enabled keeps the number of
    columns, never widens a column, leaves columns of width at most 3
    untouched and never pushes a column below 3; afterwards the table fits
    the maximal width, or every column is at most 3 wide.  (Non-negative
    widths, and a table width that fits an [int].) *)
Theorem fitted_table_fits_or_is_minimal :
  forall (border : bool) (padding max_width : Z) (cw : list Z),
    Forall (fun x => 0 <= x) cw -> 0 <= padding -> 0 <= max_width ->
    plain_width border padding cw <= 2147483647 ->
    let cw' := fit_columns true border padding max_width cw in
    length cw' = length cw /\
    Forall2 shrunk cw cw' /\
    (total_width border padding cw' <= max_width \/
     Forall (fun x => x <= 3) cw').
Proof.
  intros border padding max_width cw Hpos Hpad Hmax Htot cw'. subst cw'.
  assert (Hrefl : forall l, Forall2 shrunk l l).
  { induction l; constructor; [unfold shrunk; lia | assumption]. }
  pose proof (sum_widths_nonneg cw Hpos) as Hsum.
  pose proof (total_width_sum border padding cw Hpos Hpad Htot) as Htw.
  assert (Hnonneg : 0 <= plain_width border padding cw).
  { unfold plain_width. destruct border; nia. }
  unfold fit_columns. cbv zeta. cbn [andb].
  rewrite Htw.
  assert (Hint : to_int (plain_width border padding cw) = plain_width border padding cw)
    by (unfold to_int; rewrite Z.mod_small; lia).
  rewrite Hint.
  destruct (Z.ltb_spec max_width (plain_width border padding cw)) as [Hwide|Hfit];
    cbn [andb];
    [|repeat split; [apply Hrefl | left; rewrite Htw; assumption]].
  destruct (Nat.ltb_spec 0 (length cw));
    [|repeat split; [apply Hrefl | right; destruct cw; [constructor | cbn in *; lia]]].
  assert (Hint' : to_int (plain_width border padding cw - max_width)
                  = plain_width border padding cw - max_width)
    by (unfold to_int; rewrite Z.mod_small; lia).
  rewrite Hint'.
  pose proof (shrink_columns_spec
                (Z.to_nat (plain_width border padding cw - max_width)) cw) as Hs.
  cbv zeta in Hs. destruct Hs as (Hlen & Hshr & _ & Hcase).
  split; [assumption|]. split; [assumption|].
  destruct Hcase as [Heq | Hsmall]; [left | right; assumption].
  rewrite Z2Nat.id in Heq by lia.
  assert (Hpw : plain_width border padding
                  (shrink_columns (Z.to_nat (plain_width border padding cw - max_width)) cw)
                = max_width).
  { unfold plain_width in *. rewrite Hlen, Heq. lia. }
  rewrite total_width_sum; [lia | | assumption | lia].
  eapply shrunk_nonneg; eassumption.
Qed.

Lemma fitted_table_fits_or_is_minimal_witness :
  let cw' := fit_columns true true 1 20 [10; 2; 12] in
  length cw' = length [10; 2; 12] /\
  Forall2 shrunk [10; 2; 12] cw' /\
  (total_width true 1 cw' <= 20 \/ Forall (fun x => x <= 3) cw').
Proof.
  apply (fitted_table_fits_or_is_minimal true 1 20 [10; 2; 12]).
  - repeat constructor; lia.
  - lia.
  - lia.
  - vm_compute. discriminate.
Defined.

(** X19.  The padding of a data cell fills the column: left padding, cell
    width and right padding add up to the column width plus twice the
    padding; right alignment puts all spare room on the left, left alignment
    on the right, and centring splits it with the odd column on the
    right. *)
Theorem cell_padding_fills_column :
  forall (align_right align_center : bool) (col_width display_w padding : Z),
    0 <= display_w <= col_width -> col_width < 2 ^ 62 -> 0 <= padding <= 5 ->
    let '(pad_left, pad_right) :=
      cell_padding align_right align_center col_width display_w padding in
    pad_left + display_w + pad_right = col_width + 2 * padding /\
    padding <= pad_left /\ padding <= pad_right /\
    (align_right = true -> pad_right = padding) /\
    (align_right = false -> align_center = false -> pad_left = padding) /\
    (align_right = false -> align_center = true ->
     pad_left <= pad_right <= pad_left + 1).
Proof.
  intros align_right align_center col_width display_w padding Hw Hcol Hpad.
  unfold cell_padding, size_t. cbv zeta.
  assert (H64 : 2 ^ 62 < 2 ^ 64) by (vm_compute; reflexivity).
  rewrite (Z.mod_small (col_width - display_w)) by lia.
  set (space := col_width - display_w) in *.
  assert (Hhalf : 0 <= space / 2 <= space /\ space - 1 <= 2 * (space / 2) <= space).
  { pose proof (Z.div_mod space 2 ltac:(lia)).
    pose proof (Z.mod_pos_bound space 2 ltac:(lia)). lia. }
  destruct align_right; [|destruct align_center].
  - rewrite Z.mod_small by lia. repeat split; try lia; discriminate.
  - rewrite !Z.mod_small by lia. repeat split; try lia; discriminate.
  - rewrite Z.mod_small by lia. repeat split; try lia; discriminate.
Qed.

Lemma cell_padding_fills_column_witness :
  let '(pad_left, pad_right) := cell_padding false true 10 5 1 in
  pad_left + 5 + pad_right = 10 + 2 * 1 /\
  1 <= pad_left /\ 1 <= pad_right /\
  (false = true -> pad_right = 1) /\
  (false = false -> true = false -> pad_left = 1) /\
  (false = false -> true = true -> pad_left <= pad_right <= pad_left + 1).
Proof.
  apply (cell_padding_fills_column false true 10 5 1); [lia | | lia].
  vm_compute. reflexivity.
Defined.

End TableFitFacts.

Section TruncateFacts.
Import Utf8 Table TableLayout.

Lemma firstn_plus {A} (n k : nat) (l : list A) :
  firstn (n + k) l = firstn n l ++ firstn k (skipn n l).
Proof.
  revert l. induction n as [|n IH]; intros l; [reflexivity|].
  destruct l as [|x l]; [now destruct k|].
  cbn [Nat.add firstn skipn app]. now rewrite IH.
Qed.

(** A character that lies wholly inside the string is decoded from its own
    bytes alone. *)
Lemma char_width_prefix (c : ascii) (s rest : bytes) :
  (lead_len c <= length (c :: s))%nat ->
  terminal_utf8_char_width (firstn (lead_len c) (c :: s) ++ rest)
  = terminal_utf8_char_width (c :: s) /\
  snd (terminal_utf8_char_width (c :: s)) = lead_len c.
Proof.
  intros Hlen.
  pose proof (lead_len_pos c) as Hpos.
  destruct (char_width_whole c s [] Hlen) as [_ H3].
  destruct (lead_len c) as [|n] eqn:Hn; [lia|].
  cbn [firstn].
  assert (Hfit : (lead_len c <= length (c :: firstn n s))%nat).
  { cbn [length] in *. rewrite length_firstn. lia. }
  destruct (char_width_whole c (firstn n s) rest Hfit) as [H1 _].
  destruct (char_width_whole c (firstn n s) (skipn n s) Hfit) as [H2 _].
  change ((c :: firstn n s) ++ skipn n s) with (c :: (firstn n s ++ skipn n s)) in H2.
  rewrite firstn_skipn in H2.
  split; [congruence | exact H3].
Qed.

(** The loop stops at a character boundary [pos + k]; the width of the
    bytes it passed is within the limit, and re-measuring them, whatever
    is appended, starts the rest from that width. *)
Lemma truncate_loop_spec (fuel : nat) :
  forall (m : nat) (str : bytes) (width : Z) (pos : nat) (limit : Z),
    whole_chars_loop m str = true -> (length str <= fuel)%nat -> width <= limit ->
    exists (k : nat) (at_end : bool) (w' : Z),
      truncate_loop fuel str width pos limit = Some ((pos + k)%nat, at_end) /\
      (k <= length str)%nat /\
      (at_end = true -> k = length str) /\
      (at_end = false -> (k < length str)%nat) /\
      width <= w' <= limit /\
      forall (tail : bytes) (f : nat),
        (length (firstn k str ++ tail) <= f)%nat ->
        display_width_loop f (firstn k str ++ tail) width
        = display_width_loop (length tail) tail w'.
Proof.
  induction fuel as [|fuel IH]; intros m str width pos limit Hwhole Hfuel Hlim.
  - destruct str; [|cbn in Hfuel; lia].
    exists 0%nat, true, width. cbn [truncate_loop length firstn app].
    rewrite Nat.add_0_r.
    repeat split; try lia; try discriminate.
    intros tail f Hf. now apply display_width_loop_fuel.
  - destruct str as [|c s].
    { exists 0%nat, true, width. cbn [truncate_loop length firstn app].
      rewrite Nat.add_0_r.
      repeat split; try lia; try discriminate.
      intros tail f Hf. now apply display_width_loop_fuel. }
    cbn [truncate_loop].
    destruct (Z.ltb_spec width limit) as [Hlt|Hge]; cbn [negb].
    2:{ exists 0%nat, false, width. cbn [firstn app length].
        rewrite Nat.add_0_r.
        repeat split; try lia; try discriminate.
        intros tail f Hf. now apply display_width_loop_fuel. }
    destruct m as [|m]; [discriminate|].
    cbn [whole_chars_loop] in Hwhole.
    apply andb_prop in Hwhole. destruct Hwhole as [Hlead Hrest].
    apply Nat.leb_le in Hlead.
    pose proof (lead_len_pos c) as Hpos.
    pose proof (char_width_range (c :: s)) as Hcw.
    pose proof (fun rest => proj1 (char_width_prefix c s rest Hlead)) as Hdec.
    pose proof (proj2 (char_width_prefix c s [] Hlead)) as Hn.
    destruct (terminal_utf8_char_width (c :: s)) as [cw n] eqn:Hd.
    cbn [fst snd] in Hcw, Hn. subst n.
    destruct (Z.leb_spec (width + cw) limit) as [Hok|Hover].
    2:{ exists 0%nat, false, width. cbn [firstn app length].
        rewrite Nat.add_0_r.
        repeat split; try lia; try discriminate.
        intros tail f Hf. now apply display_width_loop_fuel. }
    destruct (IH m (skipn (lead_len c) (c :: s)) (width + cw)
                 (pos + lead_len c)%nat limit Hrest) as
        (k & at_end & w' & Hrun & Hk & Hend & Hmid & Hw & Hmeasure);
      [rewrite length_skipn; cbn [length] in *; lia | lia |].
    rewrite length_skipn in Hk, Hend, Hmid.
    exists (lead_len c + k)%nat, at_end, w'.
    split; [rewrite Hrun; do 2 f_equal; lia|].
    split; [lia|]. split; [intros E; specialize (Hend E); lia|].
    split; [intros E; specialize (Hmid E); lia|]. split; [lia|].
    intros tail f Hf.
    rewrite firstn_plus, <- app_assoc in Hf |- *.
    assert (Hl : length (firstn (lead_len c) (c :: s)) = lead_len c)
      by (rewrite length_firstn; lia).
    destruct f as [|f]; [rewrite length_app, Hl in Hf; lia|].
    destruct (firstn (lead_len c) (c :: s)) as [|c' a] eqn:Hfirst;
      [cbn [length] in Hl; lia|].
    change ((c' :: a) ++ ?x) with (c' :: (a ++ x)).
    cbn [display_width_loop].
    change (c' :: (a ++ ?x)) with ((c' :: a) ++ x).
    rewrite Hdec.
    rewrite skipn_app, Hl, Nat.sub_diag. cbn [skipn].
    rewrite <- Hl at 1. rewrite skipn_all. cbn [app].
    apply Hmeasure. rewrite !length_app, Hl in Hf. rewrite length_app. lia.
Qed.

(** X18.  For a cell text without a cut-short character, a maximal width
    above 3 and a destination that has room for the text and the ellipsis,
    [truncate_string] stores either the text itself or a proper prefix of it
    followed by [...], and the display width of what it stores is at most
    the maximal width. *)
Theorem truncated_cell_fits :
  forall (src : bytes) (max_width dest_size : Z),
    whole_chars src = true -> 3 < max_width ->
    Z.of_nat (length src) + 4 <= dest_size ->
    exists (dest : bytes) (w : Z),
      truncate_string src max_width dest_size = Some (Stored dest) /\
      terminal_display_width dest = Some w /\
      w <= max_width /\
      (dest = src \/
       exists p, (p < length src)%nat /\ dest = firstn p src ++ bs "...").
Proof.
  intros src max_width dest_size Hwhole Hmax Hsize.
  unfold truncate_string.
  destruct (Z.leb_spec max_width 3); [lia|].
  destruct (truncate_loop_spec (length src) (length src) src 0 0 (max_width - 3)
              Hwhole (le_n _)) as
      (k & at_end & w' & Hrun & Hk & Hend & Hmid & Hw & Hmeasure); [lia|].
  rewrite Hrun. cbn [obind Nat.add].
  destruct at_end.
  - specialize (Hend eq_refl). subst k.
    destruct (Z.leb_spec (Z.of_nat (length src) + 1) dest_size); [|lia].
    exists src, w'. split; [reflexivity|]. split; [|split; [lia | left; reflexivity]].
    specialize (Hmeasure [] (length src)).
    rewrite firstn_all, app_nil_r in Hmeasure.
    unfold terminal_display_width. rewrite Hmeasure by lia. reflexivity.
  - specialize (Hmid eq_refl).
    destruct (Z.leb_spec (Z.of_nat k + 4) dest_size); [|lia].
    exists (firstn k src ++ bs "..."), (w' + 3).
    split; [reflexivity|]. split; [|split; [lia | right; exists k; auto]].
    unfold terminal_display_width. rewrite Hmeasure by lia.
    cbn. f_equal. lia.
Qed.

Lemma truncated_cell_fits_witness :
  exists (dest : bytes) (w : Z),
    truncate_string (bs "Hello, world") 8 256 = Some (Stored dest) /\
    terminal_display_width dest = Some w /\
    w <= 8 /\
    (dest = bs "Hello, world" \/
     exists p, (p < length (bs "Hello, world"))%nat /\
               dest = firstn p (bs "Hello, world") ++ bs "...").
Proof.
  apply (truncated_cell_fits (bs "Hello, world") 8 256).
  - vm_compute. reflexivity.
  - lia.
  - vm_compute. discriminate.
Defined.

End TruncateFacts.
